(** * dnnbrain.utils.util: frame schedules and DNN masks

    A shallow embedding of [src/dnnbrain/utils/util.py], that is of
    [get_frame_time_info] and [gen_dmask], together with the properties the
    specification states about them.

    Conventions of the embedding:
    - Python [int] is [Z]; Python [float] is an abstract type [F] with the
      operations of the class [PyFloat].  Two instances are given: [binary64]
      (IEEE 754 double precision, what CPython computes with) and [exactQ]
      (the rationals, arithmetic without rounding).  An argument whose type
      the code does not check is a Python object ([pyobj]): an [int], a
      [bool], a [float], or something that is no number.
    - A Python exception is a value of [exn]; a computation that may raise and
      that acts on some state [S] (the calls made on [cv2], the [Mask] object)
      is a function [S -> outcome A * S].  An exception keeps the state reached
      when it was raised.
    - [cv2] and [Mask] are collaborators that are not part of the file: they
      are taken as parameters. *)

From Stdlib Require Import String Ascii ZArith QArith Bool List Lia Floats.
From Equations Require Import Equations.
Import ListNotations.

Set Implicit Arguments.
Local Open Scope string_scope.
Local Open Scope list_scope.
Local Open Scope Z_scope.

(** ** Exceptions and the state-and-exception monad *)

Inductive exn : Type :=
| AssertionError (msg : string)
| ValueError (msg : string)
| ZeroDivisionError
| IndexError
| OverflowError
| TypeError
| ExternalError (name : string).

(** The specification calls every violated precondition [InvalidArgument];
    in the code these are the failed [assert]s and the [ValueError]s. *)
Definition InvalidArgument (e : exn) : Prop :=
  match e with
  | AssertionError _ | ValueError _ => True
  | _ => False
  end.

Inductive outcome (A : Type) : Type :=
| Returned (a : A)
| Raised (e : exn).
Arguments Returned {A} a.
Arguments Raised {A} e.

Definition Eff (S A : Type) : Type := S -> outcome A * S.

Definition ret {S A} (a : A) : Eff S A := fun s => (Returned a, s).

Definition raise {S A} (e : exn) : Eff S A := fun s => (Raised e, s).

(** A computation that touches no state. *)
Definition lift {S A} (o : outcome A) : Eff S A := fun s => (o, s).

Definition bind {S A B} (c : Eff S A) (k : A -> Eff S B) : Eff S B :=
  fun s => match c s with
           | (Returned a, s') => k a s'
           | (Raised e, s') => (Raised e, s')
           end.

Declare Scope eff_scope.
Delimit Scope eff_scope with eff.
Notation "x <- c ;; k" := (bind c (fun x => k))
  (at level 61, c at next level, right associativity) : eff_scope.
Notation "c ;;; k" := (bind c (fun _ => k))
  (at level 61, right associativity) : eff_scope.
Local Open Scope eff_scope.

(** [assert cond, msg] *)
Definition py_assert {S} (cond : bool) (msg : string) : Eff S unit :=
  if cond then ret tt else raise (AssertionError msg).

(** [for x in xs: body], the loop variable threaded explicitly. *)
Fixpoint for_each {S A B} (xs : list A) (body : B -> A -> Eff S B) (acc : B)
  : Eff S B :=
  match xs with
  | [] => ret acc
  | x :: xs' => acc' <- body acc x ;; for_each xs' body acc'
  end.

(** ** Python lists *)

(** The position an index denotes in a list of length [n]: a negative index
    counts from the end, and anything outside [0, n) is an [IndexError]. *)
Definition py_index (n : nat) (i : Z) : option nat :=
  let j := if i <? 0 then i + Z.of_nat n else i in
  if (0 <=? j) && (j <? Z.of_nat n) then Some (Z.to_nat j) else None.

Fixpoint list_update {A} (l : list A) (k : nat) (x : A) : list A :=
  match l, k with
  | [], _ => []
  | _ :: t, O => x :: t
  | h :: t, S k' => h :: list_update t k' x
  end.

(** [l[i]] *)
Definition getitem {S A} (l : list A) (i : Z) : Eff S A :=
  match py_index (length l) i with
  | Some k => match nth_error l k with
              | Some x => ret x
              | None => raise IndexError
              end
  | None => raise IndexError
  end.

(** [l[i] = x] *)
Definition setitem {S A} (l : list A) (i : Z) (x : A) : Eff S (list A) :=
  match py_index (length l) i with
  | Some k => ret (list_update l k x)
  | None => raise IndexError
  end.

(** [l[:stop]]: a slice never raises, its bound is clipped to the list. *)
Definition slice_to {A} (l : list A) (stop : Z) : list A :=
  let n := Z.of_nat (length l) in
  let s := if stop <? 0 then Z.max 0 (stop + n) else Z.min stop n in
  firstn (Z.to_nat s) l.

(** [list(range(start, stop, step))] for a positive [step], as the iteration
    it stands for: yield [start] while it is below [stop], then advance by
    [step].  [get_frame_time_info] reaches it only after asserting
    [interval > 0]; for another step the model yields nothing. *)
Equations? py_range (start stop step : Z) : list Z
  by wf (Z.to_nat (stop - start)) lt :=
  py_range start stop step with Z_lt_dec start stop, Z_lt_dec 0 step => {
    | left _, left _ => start :: py_range (start + step) stop step;
    | _, _ => [] }.
Proof. lia. Qed.

(** ** Python floats *)

(** What the code asks of a [float]: the constants [0.0] and [1.0], the
    conversion of an [int] (which raises [OverflowError] when the integer is
    too large), the four operations and the comparisons [==] and [<]. *)
Class PyFloat (F : Type) : Type := {
  fzero : F;
  fone : F;
  of_int : Z -> option F;
  fadd : F -> F -> F;
  fsub : F -> F -> F;
  fmul : F -> F -> F;
  fdiv : F -> F -> F;
  feqb : F -> F -> bool;
  fltb : F -> F -> bool
}.

(** IEEE 754 double precision, CPython's [float]. *)
Definition binary64_of_int (n : Z) : option float :=
  let x := SF2Prim (binary_normalize prec emax n 0 false) in
  if PrimFloat.eqb (PrimFloat.abs x) infinity then None else Some x.

#[export] Instance binary64 : PyFloat float := {
  fzero := PrimFloat.zero;
  fone := PrimFloat.one;
  of_int := binary64_of_int;
  fadd := PrimFloat.add;
  fsub := PrimFloat.sub;
  fmul := PrimFloat.mul;
  fdiv := PrimFloat.div;
  feqb := PrimFloat.eqb;
  fltb := PrimFloat.ltb
}.

(** *** Reading a [binary64] number *)

(** The value of a finite number with mantissa [m] and exponent [e], in
    units of [2 ^ -1074]. *)
Definition units (m : positive) (e : Z) : Z := Zpos m * 2 ^ (e + 1074).

(** Above zero: positive and finite, or the positive infinity. *)
Definition sf_positive (x : spec_float) : bool :=
  match x with
  | S754_finite false _ _ | S754_infinity false => true
  | _ => false
  end.

(** Not below zero. *)
Definition sf_nonneg (x : spec_float) : bool :=
  match x with
  | S754_zero _ | S754_finite false _ _ | S754_infinity false => true
  | _ => false
  end.

(** A number other than the negative infinity. *)
Definition sf_above_ninf (x : spec_float) : bool :=
  match x with
  | S754_nan | S754_infinity true => false
  | _ => true
  end.

(** Arithmetic without rounding, on the rationals. *)
#[export] Instance exactQ : PyFloat Q := {
  fzero := 0%Q;
  fone := 1%Q;
  of_int := fun n => Some (inject_Z n);
  fadd := Qplus;
  fsub := Qminus;
  fmul := Qmult;
  fdiv := Qdiv;
  feqb := Qeq_bool;
  fltb := fun x y => negb (Qle_bool y x)
}.

(** A Python object, as far as the code can tell objects apart: an [int], a
    [bool], a [float], and what is no number (a string, [None]). *)
Inductive pyobj (F : Type) : Type :=
| VInt (n : Z)
| VBool (b : bool)
| VFloat (x : F)
| VStr (s : string)
| VNone.
Arguments VInt {F} n.
Arguments VBool {F} b.
Arguments VFloat {F} x.
Arguments VStr {F} s.
Arguments VNone {F}.

(** The integer an instance of [int] holds; [bool] is a subclass of [int]. *)
Definition as_int {F} (v : pyobj F) : option Z :=
  match v with
  | VInt n => Some n
  | VBool b => Some (if b then 1 else 0)
  | _ => None
  end.

(** ** cv2 *)

Inductive cap_prop : Type := CAP_PROP_FPS | CAP_PROP_FRAME_COUNT.

(** The calls made on [cv2], in order. *)
Inductive cv2_call : Type :=
| call_VideoCapture (vid_file : string)
| call_get (prop : cap_prop).

Section FrameTimeInfo.

Context {F : Type} `{PyFloat F}.

(** What a capture answers: its frame rate, and its frame count as the
    integer [int(...)] makes of it. *)
Record VideoCapture : Type := {
  frame_rate : F;
  frame_count : Z
}.

(** The videos on disk, each by what its capture answers;
    [cv2.VideoCapture] and [get] themselves are taken not to raise. *)
Variable cv2 : string -> VideoCapture.

Definition cv2_VideoCapture (vid_file : string)
  : Eff (list cv2_call) VideoCapture :=
  fun calls => (Returned (cv2 vid_file), calls ++ [call_VideoCapture vid_file]).

Definition get_fps (vid_cap : VideoCapture) : Eff (list cv2_call) F :=
  fun calls => (Returned (frame_rate vid_cap), calls ++ [call_get CAP_PROP_FPS]).

Definition get_n_frame (vid_cap : VideoCapture) : Eff (list cv2_call) Z :=
  fun calls =>
    (Returned (frame_count vid_cap), calls ++ [call_get CAP_PROP_FRAME_COUNT]).

(** [float(n)], as a mixed operation applies it to its [int] operand. *)
Definition to_float {S} (n : Z) : Eff S F :=
  match of_int n with
  | Some x => ret x
  | None => raise OverflowError
  end.

(** [1 / y] for a [float] [y]: the literal becomes [1.0], and a divisor equal
    to zero raises. *)
Definition one_over {S} (y : F) : Eff S F :=
  if feqb y fzero then raise ZeroDivisionError else ret (fdiv fone y).

(** [x * n] for a [float] [x] and an [int] [n]. *)
Definition mul_int {S} (x : F) (n : Z) : Eff S F :=
  y <- to_float n ;; ret (fmul x y).

Definition interval_msg : string :=
  "Parameter 'interval' must be a positive integer!".

(** [assert isinstance(interval, int) and interval > 0, ...]; what it lets
    through is an integer, which the rest of the function computes with. *)
Definition assert_interval {S} (interval : pyobj F) : Eff S Z :=
  match as_int interval with
  | Some n => py_assert (0 <? n) interval_msg ;;; ret n
  | None => raise (AssertionError interval_msg)
  end.

(** The [float] a mixed operation makes of its other operand: a [float] as
    it is, an [int] (a [bool] is one) converted, which raises
    [OverflowError] when it is too large; with an object that is no number
    the operation is a [TypeError]. *)
Definition float_of (y : pyobj F) : outcome F :=
  match y with
  | VFloat x => Returned x
  | VInt n =>
      match of_int n with
      | Some x => Returned x
      | None => Raised OverflowError
      end
  | VBool b =>
      match of_int (if b then 1 else 0) with
      | Some x => Returned x
      | None => Raised OverflowError
      end
  | VStr _ | VNone => Raised TypeError
  end.

(** [x + y] for a [float] [x] and any object [y]. *)
Definition float_add {S} (x : F) (y : pyobj F) : Eff S F :=
  y' <- lift (float_of y) ;; ret (fadd x y').

(** [y + x] for any object [y] and a [float] [x]. *)
Definition add_float {S} (y : pyobj F) (x : F) : Eff S F :=
  y' <- lift (float_of y) ;; ret (fadd y' x).

(** [original_onset], [before_vid] and [after_vid] are documented as floats
    and nowhere checked: they are objects, and the additions convert them.
    The first onset is [original_onset] itself, as it was given. *)
Definition get_frame_time_info (vid_file : string) (original_onset : pyobj F)
    (interval : pyobj F) (before_vid after_vid : pyobj F)
  : Eff (list cv2_call) (list Z * list (pyobj F) * list F) :=
  interval <- assert_interval interval ;;
  (* load video information *)
  vid_cap <- cv2_VideoCapture vid_file ;;
  fps <- get_fps vid_cap ;;
  n_frame <- get_n_frame vid_cap ;;
  (* generate sequence numbers *)
  let frame_nums := py_range 1 (n_frame + 1) interval in
  (* generate durations *)
  r <- one_over fps ;;
  duration <- mul_int r interval ;;
  let durations := repeat duration (length frame_nums) in
  d <- getitem durations 0 ;;
  d <- float_add d before_vid ;;
  durations <- setitem durations 0 d ;;
  d <- getitem durations (-1) ;;
  d <- float_add d after_vid ;;
  durations <- setitem durations (-1) d ;;
  (* generate onsets *)
  onsets <- for_each (slice_to durations (-1))
              (fun onsets d =>
                 o <- getitem onsets (-1) ;;
                 o <- add_float o d ;;
                 ret (onsets ++ [VFloat o]))
              [original_onset] ;;
  ret (frame_nums, onsets, durations).

End FrameTimeInfo.


(** ** Mask *)

(** [dnnbrain.dnn.core.Mask] as [gen_dmask] uses it: the constructor and the
    two methods, which act on the object and may raise errors of their own.
    [Mask_set layer None] is the call [dmask.set(layer)], that leaves
    [channels] out. *)
Class MaskLike (M : Type) : Type := {
  Mask : M;
  Mask_set : string -> option (list Z) -> Eff M unit;
  Mask_load : string -> Eff M unit
}.

(** A mask that only records the calls made on it, in order. *)
Inductive mask_call : Type :=
| call_set (layer : string) (channels : option (list Z))
| call_load (dmask_file : string).

#[export] Instance RecordingMask : MaskLike (list mask_call) := {
  Mask := [];
  Mask_set := fun layer channels calls =>
                (Returned tt, calls ++ [call_set layer channels]);
  Mask_load := fun dmask_file calls =>
                 (Returned tt, calls ++ [call_load dmask_file])
}.

Definition is_None {A} (x : option A) : bool :=
  match x with
  | None => true
  | Some _ => false
  end.

Section GenDmask.

Context {M : Type} `{MaskLike M}.

Definition xor_msg : string :=
  "Use one and only one of the 'layers' and 'dmask_file'!".

Definition channels_msg : string :=
  "'channels' can't be used without 'layers'!".

Definition empty_msg : string := "'layers' can't be empty!".

Definition length_msg : string :=
  "'channels' must be None or a list with same length as 'layers'"
  ++ " when the length of 'layers' is larger than 1.".

(** The computation acts on the one object [Mask()] creates (line 73), so it
    is run from the state [Mask]; the assertions before that line do not
    touch it.  The value returned is that object, as it is at the end. *)
Definition gen_dmask (layers : option (list string))
    (channels : option (list Z)) (dmask_file : option string) : Eff M M :=
  (* set some assertions *)
  py_assert (xorb (is_None layers) (is_None dmask_file)) xor_msg ;;;
  (if is_None layers then py_assert (is_None channels) channels_msg
   else ret tt) ;;;
  match layers with
  | None =>
      (* load from dmask file *)
      match dmask_file with
      | Some file => Mask_load file
      | None => ret tt (* excluded by the first assertion *)
      end
  | Some layers =>
      (* combine layers and channels *)
      let n_layer := length layers in
      if (n_layer =? 0)%nat then raise (ValueError empty_msg)
      else if (n_layer =? 1)%nat then
        layer <- getitem layers 0 ;; Mask_set layer channels
      else
        match channels with
        | None =>
            for_each layers (fun _ layer => Mask_set layer None) tt
        | Some channels =>
            if (n_layer =? length channels)%nat then
              for_each (combine layers channels)
                (fun _ '(layer, chn) => Mask_set layer (Some [chn])) tt
            else raise (ValueError length_msg)
        end
  end ;;;
  fun dmask => (Returned dmask, dmask).

End GenDmask.


(** ** What [get_frame_time_info] returns, in closed form *)

Section Schedule.

Context {F : Type} `{PyFloat F}.

(** [1 / fps * interval], when [interval] converts to a [float]. *)
Definition base_duration (fps : F) (interval : Z) : option F :=
  match of_int interval with
  | Some y => Some (fmul (fdiv fone fps) y)
  | None => None
  end.

(** [n] copies of [d], the first increased by [b] and then the last by [a]. *)
Definition adjusted (d b a : F) (n : nat) : list F :=
  match n with
  | O => []
  | 1%nat => [fadd (fadd d b) a]
  | S (S m) => fadd d b :: repeat d m ++ [fadd d a]
  end.

(** The onsets that follow [o]: each adds one more duration, left to right. *)
Fixpoint running (o : F) (ds : list F) : list F :=
  match ds with
  | [] => []
  | d :: ds' => fadd o d :: running (fadd o d) ds'
  end.

(** The onsets for the durations [ds] of all frames but the last: the
    object given, as it is, and then the running sums from its [float]; with
    no duration to add the object is not converted at all. *)
Definition onsets_of (original_onset : pyobj F) (ds : list F)
  : outcome (list (pyobj F)) :=
  match ds with
  | [] => Returned [original_onset]
  | _ :: _ =>
      match float_of original_onset with
      | Returned o => Returned (original_onset :: map VFloat (running o ds))
      | Raised e => Raised e
      end
  end.

(** What lines 40 to 48 make of [n] copies of the duration [d], [n] not
    being 0, for a result [g] of the onsets and the durations. *)
Definition adjusted_schedule {R} (g : list (pyobj F) -> list F -> R)
    (d : F) (original_onset before_vid after_vid : pyobj F) (n : nat)
  : outcome R :=
  match float_of before_vid with
  | Raised e => Raised e
  | Returned b =>
      match float_of after_vid with
      | Raised e => Raised e
      | Returned a =>
          let durations := adjusted d b a n in
          match onsets_of original_onset (removelast durations) with
          | Raised e => Raised e
          | Returned onsets => Returned (g onsets durations)
          end
      end
  end.

End Schedule.

(** The calls a run that gets past the assertion makes on [cv2]. *)
Definition cv2_calls (vid_file : string) : list cv2_call :=
  [call_VideoCapture vid_file; call_get CAP_PROP_FPS;
   call_get CAP_PROP_FRAME_COUNT].

(** The ceiling of [n / k], for a positive [k]. *)
Definition ceil_div (n k : Z) : Z := (n + k - 1) / k.

(** [interval] is a positive integer, as [isinstance(interval, int)] sees
    integers. *)
Definition positive_integer {F} (interval : pyobj F) : Prop :=
  exists n, as_int interval = Some n /\ 0 < n.


(** The calls [gen_dmask] is to make for paired layers and channels. *)
Definition paired_calls (layers : list string) (channels : list Z)
  : list mask_call :=
  map (fun '(layer, chn) => call_set layer (Some [chn]))
    (combine layers channels).

(** Making recorded calls on a mask, until one raises. *)
Definition replay {M} `{MaskLike M} (calls : list mask_call) : Eff M unit :=
  for_each calls
    (fun _ c => match c with
                | call_set layer channels => Mask_set layer channels
                | call_load dmask_file => Mask_load dmask_file
                end) tt.

(** What a function returns when it ends in [return dmask]. *)
Definition returning {M} (r : outcome unit * M) : outcome M * M :=
  match r with
  | (Returned _, dmask) => (Returned dmask, dmask)
  | (Raised e, dmask) => (Raised e, dmask)
  end.

(** ** The boundary adjustment as the specification words it *)

Section SpecWords.

Context {F : Type} `{PyFloat F}.

(** [interval / fps], when [interval] converts to a [float]. *)
Definition spec_base_duration (fps : F) (interval : Z) : option F :=
  match of_int interval with
  | Some y => Some (fdiv y fps)
  | None => None
  end.

(** [durations[0] - base == before_vid], [durations[-1] - base == after_vid]
    and every duration in between [== base]; with a single duration,
    [durations[0] - base == before_vid + after_vid]. *)
Definition spec_boundary_adjustment (base before_vid after_vid : F)
    (durations : list F) : Prop :=
  match durations with
  | [] => True
  | [d] => feqb (fsub d base) (fadd before_vid after_vid) = true
  | d0 :: rest =>
      feqb (fsub d0 base) before_vid = true
      /\ feqb (fsub (last rest d0) base) after_vid = true
      /\ Forall (fun d => feqb d base = true) (removelast rest)
  end.

End SpecWords.

(** ** Videos used as examples *)

(** Frame rate 4 and 7 frames: every value of the schedule is a dyadic
    number, which [binary64] holds exactly. *)
Definition dyadic_video : string -> VideoCapture (F:=float) :=
  fun _ => {| frame_rate := 4%float; frame_count := 7 |}.

(** Frame rate 4 and 3 frames. *)
Definition short_video : string -> VideoCapture (F:=float) :=
  fun _ => {| frame_rate := 4%float; frame_count := 3 |}.

(** The video of the specification's example: frame rate 25, 100 frames. *)
Definition spec_video : string -> VideoCapture (F:=float) :=
  fun _ => {| frame_rate := 25%float; frame_count := 100 |}.

(** Frame rate 49 and 99 frames: [1 / 49 * 49] is not [49 / 49] in
    [binary64]. *)
Definition slow_video : string -> VideoCapture (F:=float) :=
  fun _ => {| frame_rate := 49%float; frame_count := 99 |}.

(** A frame rate that is the positive infinity, and 3 frames. *)
Definition unbounded_rate_video : string -> VideoCapture (F:=float) :=
  fun _ => {| frame_rate := infinity; frame_count := 3 |}.

(** A video that reports frame rate 0 and no frame. *)
Definition unopened_video : string -> VideoCapture (F:=float) :=
  fun _ => {| frame_rate := 0%float; frame_count := 0 |}.

(** A frame rate but no frame. *)
Definition empty_video : string -> VideoCapture (F:=float) :=
  fun _ => {| frame_rate := 25%float; frame_count := 0 |}.

(** Frame rate 25 and 7 frames, in exact arithmetic. *)
Definition exact_video : string -> VideoCapture (F:=Q) :=
  fun _ => {| frame_rate := 25%Q; frame_count := 7 |}.

(** The schedule of [dyadic_video] for [original_onset = -2], [interval = 2],
    [before_vid = 0.5] and [after_vid = 1]. *)
Definition dyadic_frame_nums : list Z := [1; 3; 5; 7].

Definition dyadic_onsets : list (pyobj float) :=
  [VFloat (-2)%float; VFloat (-1)%float; VFloat (-0.5)%float; VFloat 0%float].

Definition dyadic_durations : list float := [1; 0.5; 0.5; 1.5]%float.

(** The schedule of [exact_video] for [original_onset = -2], [interval = 3],
    [before_vid = 1/2] and [after_vid = 1], the fractions as the operations
    on [Q] leave them. *)
Definition exact_frame_nums : list Z := [1; 4; 7].

Definition exact_onsets : list (pyobj Q) :=
  [VFloat (-2)%Q; VFloat (-345 # 250); VFloat (-7875 # 6250)].

Definition exact_durations : list Q := [155 # 250; 3 # 25; 28 # 25].

(** ** Further notions used to state properties *)

(** The sum of a list of rationals. *)
Definition Qsum (l : list Q) : Q := fold_right Qplus 0%Q l.

(** The layer a call selects; a [load] selects none. *)
Definition selected_layer (c : mask_call) : option string :=
  match c with
  | call_set layer _ => Some layer
  | call_load _ => None
  end.

(** The arguments [gen_dmask] lets through: only a mask file, or layers
    without a mask file, the layers being one, or several with no channels
    or with as many channels. *)
Definition gen_dmask_accepts (layers : option (list string))
    (channels : option (list Z)) (dmask_file : option string) : bool :=
  match layers, dmask_file with
  | None, Some _ => is_None channels
  | Some layers, None =>
      match length layers with
      | O => false
      | 1%nat => true
      | _ => match channels with
             | None => true
             | Some channels => (length channels =? length layers)%nat
             end
      end
  | _, _ => false
  end.

(** A recording mask that refuses the layer with the empty name: its [set]
    raises and records nothing for it. *)
Definition FussyMask : MaskLike (list mask_call) := {|
  Mask := [];
  Mask_set := fun layer channels calls =>
                if String.eqb layer ""
                then (Raised (ExternalError "KeyError"), calls)
                else (Returned tt, calls ++ [call_set layer channels]);
  Mask_load := fun dmask_file calls =>
                 (Returned tt, calls ++ [call_load dmask_file])
|}.

(** ** [range] *)

Lemma py_range_step start stop step :
  py_range start stop step =
  if (start <? stop) && (0 <? step)
  then start :: py_range (start + step) stop step else [].
Proof.
  funelim (py_range start stop step);
    destruct (Z.ltb_spec start stop), (Z.ltb_spec 0 step); cbn; try lia;
    reflexivity.
Qed.

Lemma py_range_empty start stop step :
  stop <= start -> py_range start stop step = [].
Proof.
  intros Hle. rewrite py_range_step.
  destruct (Z.ltb_spec start stop); [lia | reflexivity].
Qed.

Lemma py_range_cons start stop step :
  start < stop -> 0 < step ->
  py_range start stop step = start :: py_range (start + step) stop step.
Proof.
  intros Hlt Hp. rewrite py_range_step.
  destruct (Z.ltb_spec start stop), (Z.ltb_spec 0 step); cbn; try lia; reflexivity.
Qed.

Lemma py_range_nth start stop step k x :
  0 < step ->
  nth_error (py_range start stop step) k = Some x ->
  x = start + Z.of_nat k * step /\ x < stop.
Proof.
  intros Hp. revert start.
  induction k as [|k IH]; intros start Hn.
  - destruct (Z_lt_dec start stop) as [Hlt|Hge].
    + rewrite py_range_cons in Hn by assumption. cbn in Hn.
      injection Hn as <-. lia.
    + rewrite py_range_empty in Hn by lia. discriminate.
  - destruct (Z_lt_dec start stop) as [Hlt|Hge].
    + rewrite py_range_cons in Hn by assumption. cbn [nth_error] in Hn.
      apply IH in Hn. lia.
    + rewrite py_range_empty in Hn by lia. discriminate.
Qed.

Lemma ceil_shift stop start step :
  0 < step ->
  (stop - (start + step) + step - 1) / step = (stop - start + step - 1) / step - 1.
Proof.
  intros Hp.
  replace (stop - (start + step) + step - 1)
    with ((stop - start + step - 1) + (-1) * step) by lia.
  rewrite Z.div_add by lia. lia.
Qed.

Lemma ceil_nonpos stop start step :
  0 < step -> stop <= start -> (stop - start + step - 1) / step <= 0.
Proof.
  intros Hp Hle.
  assert ((stop - start + step - 1) / step < 1); [|lia].
  apply Z.div_lt_upper_bound; lia.
Qed.

Lemma ceil_pos stop start step :
  0 < step -> start < stop -> 1 <= (stop - start + step - 1) / step.
Proof.
  intros Hp Hlt. apply Z.div_le_lower_bound; lia.
Qed.

Lemma py_range_map start stop step n :
  0 < step ->
  Z.of_nat n = Z.max 0 ((stop - start + step - 1) / step) ->
  py_range start stop step
  = map (fun k => start + Z.of_nat k * step) (seq 0 n).
Proof.
  intros Hp. revert start.
  induction n as [|n IH]; intros start Hn.
  - apply py_range_empty.
    destruct (Z_lt_dec start stop) as [Hlt|]; [|lia].
    pose proof (ceil_pos Hp Hlt). lia.
  - assert (Hlt : start < stop).
    { destruct (Z_lt_dec start stop) as [|Hge]; [assumption|].
      pose proof (@ceil_nonpos stop start step Hp ltac:(lia)). lia. }
    rewrite py_range_cons by assumption.
    cbn [seq map]. f_equal; [lia|].
    rewrite <- seq_shift, map_map.
    rewrite (IH (start + step)).
    + apply map_ext. intros k. lia.
    + rewrite ceil_shift by assumption.
      pose proof (ceil_pos Hp Hlt). lia.
Qed.

Lemma py_range_length start stop step :
  0 < step ->
  Z.of_nat (length (py_range start stop step))
  = Z.max 0 ((stop - start + step - 1) / step).
Proof.
  intros Hp.
  set (c := Z.max 0 ((stop - start + step - 1) / step)).
  rewrite (@py_range_map start stop step (Z.to_nat c)) by (subst c; lia).
  rewrite length_map, length_seq. subst c. lia.
Qed.

Lemma ceil_div_spec n k :
  0 < k -> (ceil_div n k - 1) * k < n <= ceil_div n k * k.
Proof.
  intros Hk. unfold ceil_div.
  pose proof (Z.mul_div_le (n + k - 1) k Hk).
  pose proof (Z.mul_succ_div_gt (n + k - 1) k Hk).
  nia.
Qed.

(** ** Indexing and slicing at the two ends of a list *)

Lemma py_index_first n : py_index (S n) 0 = Some 0%nat.
Proof.
  unfold py_index. change (0 <? 0) with false. cbv iota.
  rewrite (proj2 (Z.leb_le 0 0)), (proj2 (Z.ltb_lt 0 (Z.of_nat (S n)))) by lia.
  reflexivity.
Qed.

Lemma py_index_last n : py_index (S n) (-1) = Some n.
Proof.
  unfold py_index. change (-1 <? 0) with true. cbv iota.
  rewrite (proj2 (Z.leb_le 0 _)), (proj2 (Z.ltb_lt _ (Z.of_nat (S n)))) by lia.
  cbv [andb]. f_equal. lia.
Qed.

Lemma py_index_empty i : py_index 0 i = None.
Proof.
  unfold py_index. cbn [Z.of_nat].
  destruct (Z.ltb_spec i 0).
  - destruct (Z.leb_spec 0 (i + 0)); cbn; [lia | reflexivity].
  - rewrite andb_comm. destruct (Z.ltb_spec i 0); [lia | reflexivity].
Qed.

Lemma list_update_last {A} (l : list A) (x y : A) :
  list_update (l ++ [x]) (length l) y = l ++ [y].
Proof.
  induction l as [|h t IH]; cbn; [reflexivity|]. now rewrite IH.
Qed.

Section EndsOfLists.

Context {S A : Type}.
Implicit Types (l : list A) (s : S).

Lemma getitem_empty i s : getitem (@nil A) i s = (Raised IndexError, s).
Proof. unfold getitem. cbn [length]. now rewrite py_index_empty. Qed.

Lemma getitem_first x l s : getitem (x :: l) 0 s = (Returned x, s).
Proof. unfold getitem. cbn [length]. now rewrite py_index_first. Qed.

Lemma setitem_first x y l s :
  setitem (x :: l) 0 y s = (Returned (y :: l), s).
Proof. unfold setitem. cbn [length]. now rewrite py_index_first. Qed.

Lemma getitem_last l x s : getitem (l ++ [x]) (-1) s = (Returned x, s).
Proof.
  unfold getitem. rewrite length_app, Nat.add_1_r, py_index_last.
  rewrite nth_error_app2, Nat.sub_diag by lia. reflexivity.
Qed.

Lemma setitem_last l x y s :
  setitem (l ++ [x]) (-1) y s = (Returned (l ++ [y]), s).
Proof.
  unfold setitem. rewrite length_app, Nat.add_1_r, py_index_last.
  now rewrite list_update_last.
Qed.

Lemma slice_to_last l x : slice_to (l ++ [x]) (-1) = l.
Proof.
  unfold slice_to. cbn [Z.ltb Z.compare].
  rewrite length_app, Nat.add_1_r.
  replace (Z.to_nat (Z.max 0 (-1 + Z.of_nat (Datatypes.S (length l)))))
    with (length l) by lia.
  rewrite firstn_app, Nat.sub_diag, firstn_all. cbn. apply app_nil_r.
Qed.

End EndsOfLists.

(** ** [get_frame_time_info], evaluated *)

Section FrameTimeInfoRun.

Context {F : Type} `{PyFloat F}.
Variable cv2 : string -> VideoCapture (F:=F).

Lemma float_of_float (x : F) : float_of (VFloat x) = Returned x.
Proof. reflexivity. Qed.

(** Once the last onset is a [float], the loop only adds. *)
Lemma onsets_loop {S} (ds : list F) :
  forall (acc : list (pyobj F)) (o : F) (s : S),
  for_each ds
    (fun onsets d =>
       o <- getitem onsets (-1) ;;
       o <- add_float o d ;;
       ret (onsets ++ [VFloat o]))
    (acc ++ [VFloat o]) s
  = (Returned (acc ++ VFloat o :: map VFloat (running o ds)), s).
Proof.
  induction ds as [|d ds IH]; intros acc o s.
  - reflexivity.
  - cbn [for_each running map]. unfold bind at 1 2. rewrite getitem_last.
    unfold add_float, bind, lift, ret at 1 2. cbn [float_of].
    rewrite IH, <- app_assoc. reflexivity.
Qed.

(** The whole loop, from the object given. *)
Lemma onsets_loop_start {S} (original_onset : pyobj F) (ds : list F) (s : S) :
  for_each ds
    (fun onsets d =>
       o <- getitem onsets (-1) ;;
       o <- add_float o d ;;
       ret (onsets ++ [VFloat o]))
    [original_onset] s
  = (onsets_of original_onset ds, s).
Proof.
  destruct ds as [|d ds]; [reflexivity|].
  cbn [for_each onsets_of]. unfold bind at 1 2.
  change [original_onset] with ([] ++ [original_onset]) at 1.
  rewrite getitem_last. unfold add_float, bind, lift, ret at 1 2.
  destruct (float_of original_onset) as [o|e]; [|reflexivity].
  change ([] ++ [original_onset]) with [original_onset].
  rewrite (onsets_loop ds [original_onset] (fadd o d) s). reflexivity.
Qed.

Lemma durations_and_onsets {S R} (g : list (pyobj F) -> list F -> R)
    (d : F) (oo b a : pyobj F) (n : nat) (s : S) :
  (d0 <- getitem (repeat d (Datatypes.S n)) 0 ;;
   d0 <- float_add d0 b ;;
   durations <- setitem (repeat d (Datatypes.S n)) 0 d0 ;;
   d1 <- getitem durations (-1) ;;
   d1 <- float_add d1 a ;;
   durations <- setitem durations (-1) d1 ;;
   onsets <- for_each (slice_to durations (-1))
               (fun onsets d =>
                  o <- getitem onsets (-1) ;;
                  o <- add_float o d ;;
                  ret (onsets ++ [VFloat o]))
               [oo] ;;
   ret (g onsets durations)) s
  = (adjusted_schedule g d oo b a (Datatypes.S n), s).
Proof.
  set (body := fun (onsets : list (pyobj F)) (d : F) =>
                 o <- getitem (S:=S) onsets (-1) ;;
                 o <- add_float o d ;;
                 ret (onsets ++ [VFloat o])).
  unfold adjusted_schedule.
  destruct n as [|m].
  - cbn [repeat adjusted]. unfold bind at 1. rewrite getitem_first.
    unfold bind at 1. unfold float_add, bind at 1, lift.
    destruct (float_of b) as [b'|e]; [|reflexivity].
    unfold ret at 1. unfold bind at 1. rewrite setitem_first.
    change [fadd d b'] with ([] ++ [fadd d b']).
    unfold bind at 1. rewrite getitem_last.
    unfold bind at 1. unfold bind at 1.
    destruct (float_of a) as [a'|e]; [|reflexivity].
    unfold ret at 1. unfold bind at 1. rewrite setitem_last.
    unfold bind at 1. rewrite slice_to_last. subst body.
    rewrite onsets_loop_start. cbn [app removelast onsets_of]. reflexivity.
  - cbn [adjusted].
    change (repeat d (Datatypes.S (Datatypes.S m)))
      with (d :: d :: repeat d m).
    unfold bind at 1. rewrite getitem_first.
    unfold bind at 1. unfold float_add, bind at 1, lift.
    destruct (float_of b) as [b'|e]; [|reflexivity].
    unfold ret at 1. unfold bind at 1. rewrite setitem_first.
    rewrite (repeat_cons m d), app_comm_cons.
    unfold bind at 1. rewrite getitem_last.
    unfold bind at 1. unfold bind at 1.
    destruct (float_of a) as [a'|e]; [|reflexivity].
    unfold ret at 1. unfold bind at 1. rewrite setitem_last.
    unfold bind at 1. rewrite slice_to_last. subst body.
    rewrite onsets_loop_start.
    rewrite (app_comm_cons (repeat d m) [fadd d a'] (fadd d b')).
    rewrite removelast_last.
    destruct (onsets_of oo (fadd d b' :: repeat d m)); reflexivity.
Qed.

Lemma get_frame_time_info_run vid_file oo interval b a calls :
  get_frame_time_info cv2 vid_file oo interval b a calls =
  match as_int interval with
  | None => (Raised (AssertionError interval_msg), calls)
  | Some iv =>
      if 0 <? iv then
        let fps := frame_rate (cv2 vid_file) in
        let calls' := calls ++ cv2_calls vid_file in
        if feqb fps fzero then (Raised ZeroDivisionError, calls')
        else
          match base_duration fps iv with
          | None => (Raised OverflowError, calls')
          | Some d =>
              match py_range 1 (frame_count (cv2 vid_file) + 1) iv with
              | [] => (Raised IndexError, calls')
              | frame_nums =>
                  (adjusted_schedule
                     (fun onsets durations => (frame_nums, onsets, durations))
                     d oo b a (length frame_nums), calls')
              end
          end
      else (Raised (AssertionError interval_msg), calls)
  end.
Proof.
  unfold get_frame_time_info, assert_interval.
  destruct (as_int interval) as [iv|]; [|reflexivity].
  unfold bind at 1 2. unfold py_assert.
  destruct (0 <? iv); [|reflexivity].
  cbv beta iota delta [ret].
  unfold bind at 1. unfold cv2_VideoCapture.
  unfold bind at 1. unfold get_fps.
  unfold bind at 1. unfold get_n_frame.
  replace (((calls ++ [call_VideoCapture vid_file]) ++ [call_get CAP_PROP_FPS])
           ++ [call_get CAP_PROP_FRAME_COUNT])
    with (calls ++ cv2_calls vid_file)
    by (unfold cv2_calls; now rewrite <- !app_assoc).
  cbv zeta.
  unfold bind at 1. unfold one_over.
  destruct (feqb (frame_rate (cv2 vid_file)) fzero); [reflexivity|].
  cbv beta iota delta [ret].
  unfold bind at 1. unfold mul_int, to_float, base_duration.
  unfold bind at 1.
  destruct (of_int iv) as [y|]; [|reflexivity].
  cbv beta iota delta [ret].
  destruct (py_range 1 (frame_count (cv2 vid_file) + 1) iv) as [|x l].
  - cbn [length repeat]. unfold bind at 1. now rewrite getitem_empty.
  - cbn [length].
    exact (durations_and_onsets (fun on du => (x :: l, on, du)) _ oo b a _ _).
Qed.

End FrameTimeInfoRun.

(** ** The closed forms *)

Section ClosedForms.

Context {F : Type} `{PyFloat F}.
Implicit Types (d b a o : F) (ds : list F).

Lemma length_adjusted d b a n : length (adjusted d b a n) = n.
Proof.
  destruct n as [|[|m]]; cbn [adjusted length]; try reflexivity.
  rewrite length_app, repeat_length. cbn. lia.
Qed.

Lemma adjusted_single d b a : adjusted d b a 1 = [fadd (fadd d b) a].
Proof. reflexivity. Qed.

Lemma adjusted_first d b a n :
  (2 <= n)%nat -> nth_error (adjusted d b a n) 0 = Some (fadd d b).
Proof. destruct n as [|[|m]]; [lia | lia | reflexivity]. Qed.

Lemma adjusted_last d b a n :
  (2 <= n)%nat -> nth_error (adjusted d b a n) (n - 1) = Some (fadd d a).
Proof.
  destruct n as [|[|m]]; [lia | lia | intros _].
  cbn [adjusted]. replace (S (S m) - 1)%nat with (S m) by lia.
  cbn [nth_error].
  rewrite nth_error_app2; rewrite repeat_length; [|lia].
  now rewrite Nat.sub_diag.
Qed.

Lemma adjusted_middle d b a n i :
  (0 < i < n - 1)%nat -> nth_error (adjusted d b a n) i = Some d.
Proof.
  destruct n as [|[|m]]; [lia | lia | intros Hi].
  destruct i as [|j]; [lia|]. cbn [adjusted nth_error].
  rewrite nth_error_app1 by (rewrite repeat_length; lia).
  apply nth_error_repeat. lia.
Qed.

Lemma length_running o ds : length (running o ds) = length ds.
Proof.
  revert o. induction ds as [|d ds IH]; intros o; cbn; [reflexivity|].
  now rewrite IH.
Qed.

Lemma running_step ds : forall o i d,
  nth_error ds i = Some d ->
  exists x, nth_error (o :: running o ds) i = Some x
            /\ nth_error (o :: running o ds) (S i) = Some (fadd x d).
Proof.
  induction ds as [|d' ds IH]; intros o i d Hd.
  - destruct i; discriminate.
  - destruct i as [|i].
    + cbn in Hd. injection Hd as ->. exists o. split; reflexivity.
    + cbn [nth_error] in Hd. cbn [running].
      destruct (IH (fadd o d') i d Hd) as (x & Hx & Hsx).
      exists x. split; assumption.
Qed.

Lemma running_fold ds : forall o i,
  (i <= length ds)%nat ->
  nth_error (o :: running o ds) i = Some (fold_left fadd (firstn i ds) o).
Proof.
  induction ds as [|d ds IH]; intros o i Hi.
  - cbn in Hi. assert (i = 0)%nat as -> by lia. reflexivity.
  - destruct i as [|i]; [reflexivity|].
    cbn [running nth_error firstn fold_left]. apply IH. cbn in Hi. lia.
Qed.

(** All but the last element, seen through [nth_error] and [firstn]. *)
Lemma nth_error_removelast {A} (l : list A) i :
  (i < length l - 1)%nat -> nth_error (removelast l) i = nth_error l i.
Proof.
  intros Hi. destruct l as [|x l'] using rev_ind; [cbn in Hi; lia|].
  rewrite removelast_last.
  rewrite length_app in Hi. cbn in Hi.
  rewrite nth_error_app1 by lia. reflexivity.
Qed.

Lemma firstn_removelast_le {A} (l : list A) i :
  (i <= length l - 1)%nat -> firstn i (removelast l) = firstn i l.
Proof.
  intros Hi. destruct l as [|x l'] using rev_ind.
  - reflexivity.
  - rewrite removelast_last. rewrite length_app in Hi. cbn in Hi.
    rewrite firstn_app. replace (i - length l')%nat with 0%nat by lia.
    cbn. now rewrite app_nil_r.
Qed.

Lemma length_removelast {A} (l : list A) :
  length (removelast l) = (length l - 1)%nat.
Proof.
  destruct l as [|x l'] using rev_ind; [reflexivity|].
  rewrite removelast_last, length_app. cbn. lia.
Qed.

Lemma In_adjusted d b a n x :
  In x (adjusted d b a n) ->
  x = fadd (fadd d b) a \/ x = fadd d b \/ x = d \/ x = fadd d a.
Proof.
  destruct n as [|[|m]]; cbn [adjusted].
  - intros [].
  - intros [<-|[]]. now left.
  - intros [<-|Hin]; [now right; left|].
    apply in_app_or in Hin. destruct Hin as [Hin|[<-|[]]].
    + apply repeat_spec in Hin. now right; right; left.
    + now right; right; right.
Qed.

Lemma In_removelast {A} (l : list A) x : In x (removelast l) -> In x l.
Proof.
  destruct l as [|y l'] using rev_ind; [intros []|].
  rewrite removelast_last. intros Hin. apply in_or_app. now left.
Qed.

Lemma onsets_of_length (oo : pyobj F) ds on :
  onsets_of oo ds = Returned on -> length on = S (length ds).
Proof.
  destruct ds as [|d ds']; cbn [onsets_of].
  - intros E. injection E as <-. reflexivity.
  - destruct (float_of oo) as [o|e]; [|discriminate].
    intros E. injection E as <-.
    cbn [length]. now rewrite length_map, length_running.
Qed.

Lemma onsets_of_first (oo : pyobj F) ds on :
  onsets_of oo ds = Returned on -> nth_error on 0 = Some oo.
Proof.
  destruct ds as [|d ds']; cbn [onsets_of].
  - intros E. injection E as <-. reflexivity.
  - destruct (float_of oo) as [o|e]; [|discriminate].
    intros E. injection E as <-. reflexivity.
Qed.

Lemma onsets_of_float (oo : pyobj F) ds on :
  onsets_of oo ds = Returned on -> ds <> [] ->
  exists o, float_of oo = Returned o.
Proof.
  destruct ds as [|d ds']; [congruence|]. cbn [onsets_of].
  destruct (float_of oo) as [o|e]; [|discriminate].
  intros _ _. now exists o.
Qed.

Lemma onsets_of_running (oo : pyobj F) ds on o :
  onsets_of oo ds = Returned on -> float_of oo = Returned o ->
  on = oo :: map VFloat (running o ds).
Proof.
  intros Hon Ho. destruct ds as [|d ds']; cbn [onsets_of] in Hon.
  - injection Hon as <-. reflexivity.
  - rewrite Ho in Hon. injection Hon as <-. reflexivity.
Qed.

Lemma onsets_of_returns (oo : pyobj F) ds :
  (ds = [] \/ exists o, float_of oo = Returned o) ->
  exists on, onsets_of oo ds = Returned on.
Proof.
  intros [->|[o Ho]].
  - eexists. reflexivity.
  - destruct ds as [|d ds']; cbn [onsets_of]; [|rewrite Ho];
      eexists; reflexivity.
Qed.

(** The onsets as objects, against the running sums as floats. *)
Lemma onsets_floats (oo : pyobj F) o ds i x' :
  float_of oo = Returned o ->
  nth_error (o :: running o ds) i = Some x' ->
  exists x, nth_error (oo :: map VFloat (running o ds)) i = Some x
            /\ float_of x = Returned x'
            /\ ((0 < i)%nat -> x = VFloat x').
Proof.
  intros Ho Hi. destruct i as [|i]; cbn [nth_error] in *.
  - injection Hi as <-. exists oo. repeat split; [assumption | lia].
  - exists (VFloat x'). rewrite nth_error_map, Hi. repeat split.
Qed.

Lemma onsets_floats_inv (oo : pyobj F) o ds i x :
  float_of oo = Returned o ->
  nth_error (oo :: map VFloat (running o ds)) i = Some x ->
  exists x', nth_error (o :: running o ds) i = Some x'
             /\ float_of x = Returned x'.
Proof.
  intros Ho Hi. destruct i as [|i]; cbn [nth_error] in *.
  - injection Hi as <-. now exists o.
  - rewrite nth_error_map in Hi.
    destruct (nth_error (running o ds) i) as [x'|]; [|discriminate].
    injection Hi as <-. now exists x'.
Qed.

(** The conversion of an operand to a [float] raises nothing but
    [OverflowError] and [TypeError]. *)
Lemma float_of_raises (y : pyobj F) e :
  float_of y = Raised e -> e = OverflowError \/ e = TypeError.
Proof.
  destruct y as [n|[|]|x|s|]; cbn [float_of]; try discriminate;
    try (intros E; injection E as <-; now right);
    match goal with |- context [of_int ?z] => destruct (of_int z) end;
    try discriminate; intros E; injection E as <-; now left.
Qed.

Lemma adjusted_schedule_raises {R} (g : list (pyobj F) -> list F -> R)
    d oo bv av n e :
  adjusted_schedule g d oo bv av n = Raised e ->
  e = OverflowError \/ e = TypeError.
Proof.
  unfold adjusted_schedule.
  destruct (float_of bv) as [b|e0] eqn:Hb;
    [|intros E; injection E as <-; eapply float_of_raises; eassumption].
  destruct (float_of av) as [a|e0] eqn:Ha;
    [|intros E; injection E as <-; eapply float_of_raises; eassumption].
  destruct (removelast (adjusted d b a n)) as [|x l]; cbn [onsets_of];
    [discriminate|].
  destruct (float_of oo) as [o|e0] eqn:Ho; [discriminate|].
  intros E; injection E as <-; eapply float_of_raises; eassumption.
Qed.

End ClosedForms.

(** ** Properties of a returned schedule *)

Section ScheduleProperties.

Context {F : Type} `{PyFloat F}.
Variable cv2 : string -> VideoCapture (F:=F).

(** A call that returns got past every check, and what it returns is the
    closed form. *)
Lemma returned_inv vid_file oo interval bv av calls fn on du calls' :
  get_frame_time_info cv2 vid_file oo interval bv av calls
  = (Returned (fn, on, du), calls') ->
  exists iv d b a,
    as_int interval = Some iv /\ 0 < iv
    /\ feqb (frame_rate (cv2 vid_file)) fzero = false
    /\ base_duration (frame_rate (cv2 vid_file)) iv = Some d
    /\ fn = py_range 1 (frame_count (cv2 vid_file) + 1) iv
    /\ (1 <= length fn)%nat
    /\ float_of bv = Returned b
    /\ float_of av = Returned a
    /\ du = adjusted d b a (length fn)
    /\ onsets_of oo (removelast du) = Returned on
    /\ calls' = calls ++ cv2_calls vid_file.
Proof.
  rewrite get_frame_time_info_run.
  destruct (as_int interval) as [iv|]; [|discriminate].
  destruct (Z.ltb_spec 0 iv) as [Hpos|]; [|discriminate].
  cbv zeta.
  destruct (feqb (frame_rate (cv2 vid_file)) fzero) eqn:Hfps; [discriminate|].
  destruct (base_duration (frame_rate (cv2 vid_file)) iv) as [d|] eqn:Hd;
    [|discriminate].
  destruct (py_range 1 (frame_count (cv2 vid_file) + 1) iv) as [|x l] eqn:Hfn;
    [discriminate|].
  unfold adjusted_schedule.
  destruct (float_of bv) as [b|] eqn:Hb; [|discriminate].
  destruct (float_of av) as [a|] eqn:Ha; [|discriminate].
  destruct (onsets_of oo (removelast (adjusted d b a (length (x :: l)))))
    as [on0|] eqn:Hon; [|discriminate].
  intros Heq. injection Heq as <- <- <- <-.
  exists iv, d, b, a.
  repeat match goal with |- _ /\ _ => split end;
    try assumption; try reflexivity; [now symmetry | cbn [length]; lia].
Qed.

(** Conversely, past every check the call returns the closed form. *)
Lemma returns_closed_form vid_file oo interval bv av calls iv d b a on :
  as_int interval = Some iv -> 0 < iv ->
  feqb (frame_rate (cv2 vid_file)) fzero = false ->
  base_duration (frame_rate (cv2 vid_file)) iv = Some d ->
  (1 <= length (py_range 1 (frame_count (cv2 vid_file) + 1) iv))%nat ->
  float_of bv = Returned b -> float_of av = Returned a ->
  onsets_of oo
    (removelast
       (adjusted d b a
          (length (py_range 1 (frame_count (cv2 vid_file) + 1) iv))))
  = Returned on ->
  get_frame_time_info cv2 vid_file oo interval bv av calls
  = (Returned (py_range 1 (frame_count (cv2 vid_file) + 1) iv, on,
               adjusted d b a
                 (length (py_range 1 (frame_count (cv2 vid_file) + 1) iv))),
     calls ++ cv2_calls vid_file).
Proof.
  intros Hiv Hpos Hfps Hd Hlen Hb Ha Hon.
  rewrite get_frame_time_info_run, Hiv.
  destruct (Z.ltb_spec 0 iv); [|lia]. cbv zeta. rewrite Hfps, Hd.
  destruct (py_range 1 (frame_count (cv2 vid_file) + 1) iv) as [|x l];
    [cbn in Hlen; lia|].
  unfold adjusted_schedule. now rewrite Hb, Ha, Hon.
Qed.

Lemma returned_frames vid_file o interval b a calls fn on du calls' :
  get_frame_time_info cv2 vid_file o interval b a calls
  = (Returned (fn, on, du), calls') ->
  1 <= frame_count (cv2 vid_file).
Proof.
  intros Hrun.
  destruct (returned_inv _ _ _ _ _ _ Hrun)
    as (iv & d & b' & a' & _ & _ & _ & _ & Hfn & Hlen & _).
  destruct (Z_le_gt_dec 1 (frame_count (cv2 vid_file))) as [|Hlt];
    [assumption|].
  rewrite py_range_empty in Hfn by lia. subst fn. cbn in Hlen. lia.
Qed.

Lemma returned_lengths vid_file o interval b a calls fn on du calls' :
  get_frame_time_info cv2 vid_file o interval b a calls
  = (Returned (fn, on, du), calls') ->
  length fn = length on /\ length on = length du.
Proof.
  intros Hrun.
  destruct (returned_inv _ _ _ _ _ _ Hrun)
    as (iv & d & b' & a' & _ & _ & _ & _ & _ & Hlen & _ & _ & Hdu & Hon & _).
  assert (Hl : length du = length fn) by (subst du; apply length_adjusted).
  apply onsets_of_length in Hon. rewrite length_removelast in Hon. lia.
Qed.

(** The onsets of a returned schedule, once [original_onset] is a float. *)
Lemma returned_onsets vid_file oo interval b a calls fn on du calls' o :
  get_frame_time_info cv2 vid_file oo interval b a calls
  = (Returned (fn, on, du), calls') ->
  float_of oo = Returned o ->
  on = oo :: map VFloat (running o (removelast du)).
Proof.
  intros Hrun Ho.
  destruct (returned_inv _ _ _ _ _ _ Hrun)
    as (iv & d & b' & a' & _ & _ & _ & _ & _ & _ & _ & _ & _ & Hon & _).
  eapply onsets_of_running; eassumption.
Qed.

(** With more than one onset [original_onset] was converted. *)
Lemma returned_onset_float vid_file oo interval b a calls fn on du calls' :
  get_frame_time_info cv2 vid_file oo interval b a calls
  = (Returned (fn, on, du), calls') ->
  (2 <= length on)%nat ->
  exists o, float_of oo = Returned o.
Proof.
  intros Hrun Hlen.
  destruct (returned_inv _ _ _ _ _ _ Hrun)
    as (iv & d & b' & a' & _ & _ & _ & _ & _ & _ & _ & _ & _ & Hon & _).
  eapply onsets_of_float; [exact Hon|].
  apply onsets_of_length in Hon. intros E. rewrite E in Hon. cbn in Hon. lia.
Qed.

(** C1: in a returned schedule the first onset is [original_onset], as it
    was given; each later onset is the one before it plus the duration
    before it, in floating point; and so the onset at [i] is
    [original_onset] plus the first [i] durations, added from left to
    right. *)
Theorem onsets_cumulative vid_file original_onset interval before_vid
    after_vid calls frame_nums onsets durations calls' :
  get_frame_time_info cv2 vid_file original_onset interval before_vid
    after_vid calls
  = (Returned (frame_nums, onsets, durations), calls') ->
  nth_error onsets 0 = Some original_onset
  /\ (forall i, (i + 1 < length onsets)%nat ->
        exists x x' d, nth_error onsets i = Some x
                       /\ float_of x = Returned x'
                       /\ nth_error durations i = Some d
                       /\ nth_error onsets (i + 1) = Some (VFloat (fadd x' d)))
  /\ (forall i, (0 < i < length onsets)%nat ->
        exists o, float_of original_onset = Returned o
                  /\ nth_error onsets i
                     = Some (VFloat (fold_left fadd (firstn i durations) o)))
  /\ (forall o, original_onset = VFloat o ->
        forall i, (i < length onsets)%nat ->
          nth_error onsets i
          = Some (VFloat (fold_left fadd (firstn i durations) o))).
Proof.
  intros Hrun.
  destruct (returned_lengths _ _ _ _ _ _ Hrun) as [_ Hlen].
  assert (Hfold : forall o, float_of original_onset = Returned o ->
            forall i, (0 < i < length onsets)%nat ->
              nth_error onsets i
              = Some (VFloat (fold_left fadd (firstn i durations) o))).
  { intros o Ho i Hi.
    rewrite (returned_onsets _ _ _ _ _ _ Hrun Ho).
    destruct i as [|i]; [lia|]. cbn [nth_error].
    rewrite nth_error_map.
    pose proof (running_fold (removelast durations) o (i := S i)) as Hr.
    cbn [nth_error] in Hr. rewrite Hr by (rewrite length_removelast; lia).
    rewrite firstn_removelast_le by lia. reflexivity. }
  split; [|split; [|split]].
  - destruct (returned_inv _ _ _ _ _ _ Hrun)
      as (iv & d & b' & a' & _ & _ & _ & _ & _ & _ & _ & _ & _ & Hon & _).
    eapply onsets_of_first; eassumption.
  - intros i Hi.
    destruct (returned_onset_float _ _ _ _ _ _ Hrun) as [o Ho]; [lia|].
    rewrite (returned_onsets _ _ _ _ _ _ Hrun Ho).
    destruct (nth_error durations i) as [di|] eqn:Hdi.
    + assert (Hr : nth_error (removelast durations) i = Some di).
      { rewrite nth_error_removelast; [assumption | lia]. }
      destruct (running_step _ o _ Hr) as (x' & Hx' & Hsx).
      destruct (onsets_floats original_onset _ _ Ho Hx') as (x & Hx & Hfx & _).
      exists x, x', di. rewrite Nat.add_1_r. cbn [nth_error] in Hsx |- *.
      rewrite nth_error_map, Hsx. repeat split; assumption.
    + apply nth_error_None in Hdi. lia.
  - intros i Hi.
    destruct (returned_onset_float _ _ _ _ _ _ Hrun) as [o Ho]; [lia|].
    exists o. split; [assumption|]. now apply Hfold.
  - intros o -> i Hi. destruct i as [|i].
    + rewrite (returned_onsets _ _ _ _ _ _ Hrun (o := o)) by reflexivity.
      reflexivity.
    + apply Hfold; [reflexivity | lia].
Qed.


(** C2, as amended: every duration of a returned schedule is the uniform
    [base = 1 / fps * interval], except that the first is [base + before_vid]
    and the last is [base + after_vid]; with exactly one sampled frame the
    single duration is [(base + before_vid) + after_vid].  The offsets enter
    the sums as floats. *)
Theorem durations_adjusted vid_file original_onset interval before_vid
    after_vid calls frame_nums onsets durations calls' :
  get_frame_time_info cv2 vid_file original_onset interval before_vid
    after_vid calls
  = (Returned (frame_nums, onsets, durations), calls') ->
  exists iv base b a,
    as_int interval = Some iv
    /\ base_duration (frame_rate (cv2 vid_file)) iv = Some base
    /\ float_of before_vid = Returned b
    /\ float_of after_vid = Returned a
    /\ (length durations = 1%nat ->
         durations = [fadd (fadd base b) a])
    /\ ((2 <= length durations)%nat ->
         nth_error durations 0 = Some (fadd base b)
         /\ nth_error durations (length durations - 1)
            = Some (fadd base a))
    /\ (forall i, (0 < i < length durations - 1)%nat ->
           nth_error durations i = Some base).
Proof.
  intros Hrun.
  destruct (returned_inv _ _ _ _ _ _ Hrun)
    as (iv & d & b & a & Hiv & _ & _ & Hd & _ & _ & Hb & Ha & Hdu & _).
  exists iv, d, b, a. do 4 (split; [assumption|]).
  rewrite Hdu, length_adjusted. split; [|split].
  - intros ->. apply adjusted_single.
  - intros Hn. split; [now apply adjusted_first | now apply adjusted_last].
  - intros i Hi. now apply adjusted_middle.
Qed.

(** The frame numbers of a returned schedule. *)
Lemma returned_frame_nums vid_file o interval b a calls fn on du calls' :
  get_frame_time_info cv2 vid_file o interval b a calls
  = (Returned (fn, on, du), calls') ->
  exists iv,
    as_int interval = Some iv /\ 0 < iv
    /\ fn = map (fun k => 1 + Z.of_nat k * iv) (seq 0 (length fn))
    /\ Z.of_nat (length fn) = ceil_div (frame_count (cv2 vid_file)) iv.
Proof.
  intros Hrun. pose proof (returned_frames _ _ _ _ _ _ Hrun) as Hn.
  destruct (returned_inv _ _ _ _ _ _ Hrun)
    as (iv & d & b' & a' & Hiv & Hpos & _ & _ & Hfn & _).
  exists iv. split; [assumption|]. split; [assumption|].
  assert (Hlen : Z.of_nat (length fn) = ceil_div (frame_count (cv2 vid_file)) iv).
  { rewrite Hfn, py_range_length by assumption. unfold ceil_div.
    replace (frame_count (cv2 vid_file) + 1 - 1 + iv - 1)
      with (frame_count (cv2 vid_file) + iv - 1) by lia.
    assert (0 <= (frame_count (cv2 vid_file) + iv - 1) / iv)
      by (apply Z.div_pos; lia).
    lia. }
  split; [|assumption].
  rewrite Hfn at 1. apply py_range_map; [assumption|].
  rewrite <- py_range_length, <- Hfn by assumption. reflexivity.
Qed.

(** C9: the frame numbers of a returned schedule are exactly the integers
    1, 1 + interval, 1 + 2 * interval, ... that do not exceed [n_frame], and
    there are ceil(n_frame / interval) of them: the least number [m] of
    intervals with [n_frame <= m * interval]. *)
Theorem frame_nums_range vid_file original_onset interval before_vid
    after_vid calls frame_nums onsets durations calls' :
  get_frame_time_info cv2 vid_file original_onset interval before_vid
    after_vid calls
  = (Returned (frame_nums, onsets, durations), calls') ->
  exists iv,
    as_int interval = Some iv
    /\ frame_nums
       = map (fun k => 1 + Z.of_nat k * iv) (seq 0 (length frame_nums))
    /\ (forall x, In x frame_nums <->
                  1 <= x <= frame_count (cv2 vid_file) /\ (x - 1) mod iv = 0)
    /\ Z.of_nat (length frame_nums) = ceil_div (frame_count (cv2 vid_file)) iv
    /\ (Z.of_nat (length frame_nums) - 1) * iv < frame_count (cv2 vid_file)
       <= Z.of_nat (length frame_nums) * iv.
Proof.
  intros Hrun.
  destruct (returned_frame_nums _ _ _ _ _ _ Hrun)
    as (iv & Hiv & Hpos & Hmap & Hlen).
  pose proof (ceil_div_spec (frame_count (cv2 vid_file)) Hpos) as [Hlo Hhi].
  rewrite <- Hlen in Hlo, Hhi.
  exists iv. split; [assumption|]. split; [assumption|].
  split; [|split; [assumption | split; assumption]].
  intros x. rewrite Hmap, in_map_iff. split.
  - intros (k & <- & Hk). apply in_seq in Hk. split; [nia|].
    replace (1 + Z.of_nat k * iv - 1) with (Z.of_nat k * iv) by lia.
    apply Z.mod_mul. lia.
  - intros [Hx Hmod].
    apply Z.mod_divide in Hmod; [|lia]. destruct Hmod as [q Hq].
    exists (Z.to_nat q). assert (0 <= q) by nia.
    split; [lia|]. apply in_seq. nia.
Qed.

Lemma returned_frame_nums_step vid_file o interval b a calls fn on du calls' :
  get_frame_time_info cv2 vid_file o interval b a calls
  = (Returned (fn, on, du), calls') ->
  exists iv,
    as_int interval = Some iv /\ 0 < iv
    /\ (forall x, In x fn -> 0 < x)
    /\ (forall i x y, nth_error fn i = Some x ->
                      nth_error fn (i + 1) = Some y -> y = x + iv /\ x < y).
Proof.
  intros Hrun.
  destruct (returned_frame_nums _ _ _ _ _ _ Hrun)
    as (iv & Hiv & Hpos & Hmap & _).
  exists iv. split; [assumption|]. split; [assumption|]. split.
  - intros x. rewrite Hmap, in_map_iff. intros (k & <- & _). nia.
  - intros i x y. rewrite Hmap, !nth_error_map.
    intros Hx Hy.
    destruct (nth_error (seq 0 (length fn)) i) as [k|] eqn:Hk; [|discriminate].
    destruct (nth_error (seq 0 (length fn)) (i + 1)) as [k'|] eqn:Hk';
      [|discriminate].
    rewrite nth_error_seq in Hk, Hk'.
    destruct (Nat.ltb_spec i (length fn)); [|discriminate].
    destruct (Nat.ltb_spec (i + 1) (length fn)); [|discriminate].
    assert (Ek : k = i) by (injection Hk; lia).
    assert (Ek' : k' = (i + 1)%nat) by (injection Hk'; lia).
    assert (Ex : x = 1 + Z.of_nat k * iv)
      by (unfold option_map in Hx; congruence).
    assert (Ey : y = 1 + Z.of_nat k' * iv)
      by (unfold option_map in Hy; congruence).
    subst. nia.
Qed.

(** An interval that reaches the last frame samples frame 1 only. *)
Lemma py_range_single n iv :
  1 <= n <= iv -> py_range 1 (n + 1) iv = [1].
Proof.
  intros Hn. rewrite py_range_cons by lia. now rewrite py_range_empty by lia.
Qed.

(** The call returns as soon as the interval is a positive integer that
    converts to a [float], the frame rate is not zero, there is a frame,
    the two offsets convert to a [float], and so does [original_onset]
    unless frame 1 is the only one sampled. *)
Lemma returns_schedule vid_file oo interval bv av calls iv b a :
  as_int interval = Some iv -> 0 < iv -> of_int iv <> None ->
  feqb (frame_rate (cv2 vid_file)) fzero = false ->
  1 <= frame_count (cv2 vid_file) ->
  float_of bv = Returned b -> float_of av = Returned a ->
  (frame_count (cv2 vid_file) <= iv \/ exists o, float_of oo = Returned o) ->
  exists fn on du,
    get_frame_time_info cv2 vid_file oo interval bv av calls
    = (Returned (fn, on, du), calls ++ cv2_calls vid_file).
Proof.
  intros Hiv Hpos Hconv Hfps Hn Hb Ha Hoo.
  rewrite get_frame_time_info_run, Hiv.
  destruct (Z.ltb_spec 0 iv); [|lia]. cbv zeta. rewrite Hfps.
  unfold base_duration. destruct (of_int iv) as [y|]; [|congruence].
  unfold adjusted_schedule. rewrite Hb, Ha.
  destruct Hoo as [Hle|Hoo].
  - rewrite py_range_single by lia. cbn [length adjusted removelast onsets_of].
    eexists _, _, _. reflexivity.
  - rewrite py_range_cons by lia.
    match goal with |- context [onsets_of oo ?l] =>
      destruct (onsets_of_returns oo (ds := l) (or_intror Hoo)) as [on Hon]
    end.
    rewrite Hon. eexists _, _, _. reflexivity.
Qed.

(** C4, as amended: whenever the call returns, the three lists have the same
    length; and it does return them when the interval is a positive integer
    that converts to a [float], the frame rate is not zero, the frame count
    is at least one, [before_vid] and [after_vid] convert to a [float], and
    so does [original_onset] unless only frame 1 is sampled. *)
Theorem schedule_lengths vid_file original_onset interval before_vid
    after_vid calls :
  (forall frame_nums onsets durations calls',
      get_frame_time_info cv2 vid_file original_onset interval before_vid
        after_vid calls
      = (Returned (frame_nums, onsets, durations), calls') ->
      length frame_nums = length onsets
      /\ length onsets = length durations)
  /\ (forall iv b a,
        as_int interval = Some iv -> 0 < iv -> of_int iv <> None ->
        feqb (frame_rate (cv2 vid_file)) fzero = false ->
        1 <= frame_count (cv2 vid_file) ->
        float_of before_vid = Returned b ->
        float_of after_vid = Returned a ->
        (frame_count (cv2 vid_file) <= iv
         \/ exists o, float_of original_onset = Returned o) ->
        exists frame_nums onsets durations calls',
          get_frame_time_info cv2 vid_file original_onset interval before_vid
            after_vid calls
          = (Returned (frame_nums, onsets, durations), calls')
          /\ length frame_nums = length onsets
          /\ length onsets = length durations).
Proof.
  split.
  - intros fn on du calls' Hrun. exact (returned_lengths _ _ _ _ _ _ Hrun).
  - intros iv b a Hiv Hpos Hconv Hfps Hn Hb Ha Hoo.
    destruct (returns_schedule vid_file original_onset interval before_vid
                after_vid calls Hiv Hpos Hconv Hfps Hn Hb Ha Hoo)
      as (fn & on & du & Hrun).
    exists fn, on, du, (calls ++ cv2_calls vid_file).
    split; [assumption|]. exact (returned_lengths _ _ _ _ _ _ Hrun).
Qed.

(** C5: an interval that is not a positive integer makes the call fail at
    once with the assertion's error, an [InvalidArgument], before any call on
    [cv2]; a positive integer passes the assertion, and the call then makes
    its three calls on [cv2] and does not fail with an [AssertionError]. *)
Theorem interval_validation vid_file original_onset interval before_vid
    after_vid calls :
  (~ positive_integer interval ->
   get_frame_time_info cv2 vid_file original_onset interval before_vid
     after_vid calls
   = (Raised (AssertionError interval_msg), calls)
   /\ InvalidArgument (AssertionError interval_msg))
  /\ (positive_integer interval ->
      (exists n, assert_interval interval calls = (Returned n, calls))
      /\ snd (get_frame_time_info cv2 vid_file original_onset interval
                before_vid after_vid calls)
         = calls ++ cv2_calls vid_file
      /\ forall msg,
           fst (get_frame_time_info cv2 vid_file original_onset interval
                  before_vid after_vid calls)
           <> Raised (AssertionError msg)).
Proof.
  split.
  - intros Hnot. split; [|exact I].
    rewrite get_frame_time_info_run.
    destruct (as_int interval) as [iv|] eqn:Hiv; [|reflexivity].
    destruct (Z.ltb_spec 0 iv) as [Hpos|]; [|reflexivity].
    exfalso. apply Hnot. exists iv. split; assumption.
  - intros (n & Hn & Hpos). split.
    + exists n. unfold assert_interval. rewrite Hn. unfold bind, py_assert.
      destruct (Z.ltb_spec 0 n); [reflexivity | lia].
    + rewrite get_frame_time_info_run, Hn.
      destruct (Z.ltb_spec 0 n); [|lia]. cbv zeta.
      destruct (feqb (frame_rate (cv2 vid_file)) fzero);
        [split; [reflexivity | discriminate]|].
      destruct (base_duration (frame_rate (cv2 vid_file)) n);
        [|split; [reflexivity | discriminate]].
      destruct (py_range 1 (frame_count (cv2 vid_file) + 1) n);
        [split; [reflexivity | discriminate]|].
      split; [reflexivity|]. cbn [fst].
      intros msg E. apply adjusted_schedule_raises in E.
      destruct E; discriminate.
Qed.

(** C10, as amended: for a call that passes the interval assertion, a frame
    rate equal to zero makes the division raise [ZeroDivisionError], whatever
    the frame count; with a non-zero frame rate and an interval that converts
    to a [float], a frame count below one makes the adjustment of the first
    duration raise [IndexError]; and with a non-zero frame rate and at least
    one frame neither of the two is raised, and the call returns a schedule
    when the interval, [before_vid] and [after_vid] convert to a [float] and
    so does [original_onset], unless only frame 1 is sampled. *)
Theorem frame_time_info_totality vid_file original_onset interval before_vid
    after_vid calls iv :
  as_int interval = Some iv -> 0 < iv ->
  let run := get_frame_time_info cv2 vid_file original_onset interval
               before_vid after_vid calls in
  let fps := frame_rate (cv2 vid_file) in
  let n_frame := frame_count (cv2 vid_file) in
  (feqb fps fzero = true ->
   run = (Raised ZeroDivisionError, calls ++ cv2_calls vid_file))
  /\ (feqb fps fzero = false -> of_int iv <> None -> n_frame < 1 ->
      run = (Raised IndexError, calls ++ cv2_calls vid_file))
  /\ (feqb fps fzero = false -> 1 <= n_frame ->
      fst run <> Raised ZeroDivisionError /\ fst run <> Raised IndexError
      /\ (of_int iv <> None ->
          (exists b, float_of before_vid = Returned b) ->
          (exists a, float_of after_vid = Returned a) ->
          (n_frame <= iv \/ exists o, float_of original_onset = Returned o) ->
          exists schedule, fst run = Returned schedule))
  /\ ((exists schedule, fst run = Returned schedule) ->
      1 <= n_frame /\ feqb fps fzero = false).
Proof.
  intros Hiv Hpos. cbv zeta.
  split; [|split; [|split]].
  - intros Hfps. rewrite get_frame_time_info_run, Hiv.
    destruct (Z.ltb_spec 0 iv); [|lia]. cbv zeta. now rewrite Hfps.
  - intros Hfps Hconv Hn. rewrite get_frame_time_info_run, Hiv.
    destruct (Z.ltb_spec 0 iv); [|lia]. cbv zeta. rewrite Hfps.
    unfold base_duration. destruct (of_int iv) as [y|]; [|congruence].
    now rewrite py_range_empty by lia.
  - intros Hfps Hn. split; [|split].
    + rewrite get_frame_time_info_run, Hiv.
      destruct (Z.ltb_spec 0 iv); [|lia]. cbv zeta. rewrite Hfps.
      destruct (base_duration (frame_rate (cv2 vid_file)) iv);
        [|discriminate].
      rewrite py_range_cons by lia. cbn [fst].
      intros E. apply adjusted_schedule_raises in E.
      destruct E; discriminate.
    + rewrite get_frame_time_info_run, Hiv.
      destruct (Z.ltb_spec 0 iv); [|lia]. cbv zeta. rewrite Hfps.
      destruct (base_duration (frame_rate (cv2 vid_file)) iv);
        [|discriminate].
      rewrite py_range_cons by lia. cbn [fst].
      intros E. apply adjusted_schedule_raises in E.
      destruct E; discriminate.
    + intros Hconv [b Hb] [a Ha] Hoo.
      destruct (returns_schedule vid_file original_onset interval before_vid
                  after_vid calls Hiv Hpos Hconv Hfps Hn Hb Ha Hoo)
        as (fn & on & du & Hrun).
      rewrite Hrun. eexists. reflexivity.
  - intros [[[fn on] du] Hsch].
    destruct (get_frame_time_info cv2 vid_file original_onset interval
                before_vid after_vid calls) as [r calls'] eqn:Hrun.
    cbn [fst] in Hsch. subst r.
    split; [eapply returned_frames; eassumption|].
    destruct (returned_inv _ _ _ _ _ _ Hrun)
      as (iv' & d & b' & a' & _ & _ & Hfps & _).
    assumption.
Qed.

End ScheduleProperties.

(** ** [binary64] rounding

    What the primitive operations on [float] compute is given by the
    standard library's specification [SpecFloat]; the lemmas below read
    from it how adding, multiplying and dividing positive numbers round. *)

Unset Implicit Arguments.
(** *** Binary digits *)

Ltac hide_pow :=
  repeat match goal with
         | |- context [Z.pow ?a ?b] =>
             let x := fresh "pw" in
             set (x := Z.pow a b) in *; clearbody x
         | H : context [Z.pow ?a ?b] |- _ =>
             let x := fresh "pw" in
             set (x := Z.pow a b) in *; clearbody x
         end.

Lemma digits2_pos_bounds (m : positive) :
  2 ^ (Zpos (digits2_pos m) - 1) <= Zpos m < 2 ^ Zpos (digits2_pos m).
Proof.
  induction m as [p IH|p IH|]; cbn [digits2_pos].
  - rewrite Pos2Z.inj_succ, (Pos2Z.inj_xI p).
    replace (Z.succ (Zpos (digits2_pos p)) - 1)
      with (Z.succ (Zpos (digits2_pos p) - 1)) by lia.
    rewrite !Z.pow_succ_r by lia. hide_pow. lia.
  - rewrite Pos2Z.inj_succ, (Pos2Z.inj_xO p).
    replace (Z.succ (Zpos (digits2_pos p)) - 1)
      with (Z.succ (Zpos (digits2_pos p) - 1)) by lia.
    rewrite !Z.pow_succ_r by lia. hide_pow. lia.
  - cbn. lia.
Qed.

Lemma Zdigits2_bounds (x : Z) :
  0 < x -> 2 ^ (Zdigits2 x - 1) <= x < 2 ^ Zdigits2 x.
Proof.
  destruct x as [|p|p]; try lia. intros _. apply digits2_pos_bounds.
Qed.

Lemma Zdigits2_pos (x : Z) : 0 < x -> 0 < Zdigits2 x.
Proof. destruct x; cbn; lia. Qed.

Lemma Zdigits2_nonneg (x : Z) : 0 <= Zdigits2 x.
Proof. destruct x; cbn; lia. Qed.

(** [x < 2 ^ k] bounds the digits from above, [2 ^ k <= x] from below. *)
Lemma Zdigits2_le (x k : Z) : 0 < x -> 0 <= k -> x < 2 ^ k -> Zdigits2 x <= k.
Proof.
  intros Hx Hk Hlt. pose proof (Zdigits2_bounds x Hx) as [Hlo _].
  pose proof (Zdigits2_pos x Hx).
  destruct (Z_le_gt_dec (Zdigits2 x) k) as [|Hgt]; [assumption|].
  assert (2 ^ k <= 2 ^ (Zdigits2 x - 1)) by (apply Z.pow_le_mono_r; lia).
  lia.
Qed.

Lemma Zdigits2_gt (x k : Z) : 0 <= k -> 2 ^ k <= x -> k < Zdigits2 x.
Proof.
  intros Hk Hle.
  assert (Hx : 0 < x) by (pose proof (Z.pow_pos_nonneg 2 k); lia).
  pose proof (Zdigits2_bounds x Hx) as [_ Hhi].
  destruct (Z_lt_le_dec k (Zdigits2 x)) as [|Hge]; [assumption|].
  assert (2 ^ Zdigits2 x <= 2 ^ k)
    by (apply Z.pow_le_mono_r; [lia | assumption]).
  lia.
Qed.

Lemma Zdigits2_mono (x y : Z) : 0 < x -> x <= y -> Zdigits2 x <= Zdigits2 y.
Proof.
  intros Hx Hle.
  pose proof (Zdigits2_bounds x Hx) as [Hlo _].
  pose proof (Zdigits2_pos x Hx).
  assert (Zdigits2 x - 1 < Zdigits2 y) by (apply Zdigits2_gt; lia).
  lia.
Qed.

(** Dropping [n] low bits drops [n] digits. *)
Lemma Zdigits2_div (x n : Z) :
  0 < x -> 0 <= n -> n < Zdigits2 x ->
  0 < x / 2 ^ n /\ Zdigits2 (x / 2 ^ n) = Zdigits2 x - n.
Proof.
  intros Hx Hn Hlt.
  pose proof (Zdigits2_bounds x Hx) as [Hlo Hhi].
  assert (Hp : 0 < 2 ^ n) by (apply Z.pow_pos_nonneg; lia).
  assert (Hq : 2 ^ (Zdigits2 x - 1 - n) <= x / 2 ^ n).
  { apply Z.div_le_lower_bound; [assumption|].
    rewrite <- Z.pow_add_r by lia.
    replace (n + (Zdigits2 x - 1 - n)) with (Zdigits2 x - 1) by lia.
    assumption. }
  assert (Hq' : x / 2 ^ n < 2 ^ (Zdigits2 x - n)).
  { apply Z.div_lt_upper_bound; [assumption|].
    rewrite <- Z.pow_add_r by lia.
    replace (n + (Zdigits2 x - n)) with (Zdigits2 x) by lia.
    assumption. }
  assert (H0 : 0 < x / 2 ^ n).
  { pose proof (Z.pow_pos_nonneg 2 (Zdigits2 x - 1 - n)). lia. }
  split; [assumption|].
  assert (Zdigits2 (x / 2 ^ n) <= Zdigits2 x - n)
    by (apply Zdigits2_le; lia).
  assert (Zdigits2 x - 1 - n < Zdigits2 (x / 2 ^ n))
    by (apply Zdigits2_gt; lia).
  lia.
Qed.

(** *** Shifting right *)

Lemma shr_1_m (mrs : shr_record) :
  0 <= shr_m mrs -> shr_m (shr_1 mrs) = shr_m mrs / 2 /\ 0 <= shr_m (shr_1 mrs).
Proof.
  destruct mrs as [m r s]. cbn [shr_m]. intros Hm.
  destruct m as [|[p|p|]|p]; cbn [shr_1 shr_m]; try lia.
  - split; [reflexivity | lia].
  - split; [|lia]. rewrite (Pos2Z.inj_xI p).
    apply Z.div_unique with (r := 1); lia.
  - split; [|lia]. rewrite (Pos2Z.inj_xO p).
    apply Z.div_unique with (r := 0); lia.
  - split; [reflexivity | lia].
Qed.

Lemma iter_shr_1_m (p : positive) : forall mrs,
  0 <= shr_m mrs ->
  shr_m (iter_pos shr_1 p mrs) = shr_m mrs / 2 ^ Zpos p
  /\ 0 <= shr_m (iter_pos shr_1 p mrs).
Proof.
  induction p as [p IH|p IH|]; intros mrs Hm; cbn [iter_pos].
  - destruct (shr_1_m mrs Hm) as [E1 H1].
    destruct (IH _ H1) as [E2 H2]. destruct (IH _ H2) as [E3 H3].
    split; [|assumption]. rewrite E3, E2, E1.
    rewrite !Z.div_div by (try apply Z.pow_pos_nonneg; lia).
    f_equal. rewrite (Pos2Z.inj_xI p).
    replace (2 * Zpos p + 1) with (1 + Zpos p + Zpos p) by lia.
    rewrite !Z.pow_add_r by lia. lia.
  - destruct (IH _ Hm) as [E2 H2]. destruct (IH _ H2) as [E3 H3].
    split; [|assumption]. rewrite E3, E2.
    rewrite !Z.div_div by (try apply Z.pow_pos_nonneg; lia).
    f_equal. rewrite (Pos2Z.inj_xO p).
    replace (2 * Zpos p) with (Zpos p + Zpos p) by lia.
    rewrite !Z.pow_add_r by lia. lia.
  - destruct (shr_1_m mrs Hm) as [E1 H1]. split; [|assumption].
    rewrite E1. reflexivity.
Qed.

Lemma shr_m_record_of_loc m l : shr_m (shr_record_of_loc m l) = m.
Proof. destruct l as [|[| |]]; reflexivity. Qed.

Lemma round_nearest_even_bounds m l :
  m <= round_nearest_even m l <= m + 1.
Proof.
  destruct l as [|[| |]]; cbn [round_nearest_even]; try lia.
  destruct (Z.even m); lia.
Qed.

Lemma fexp64 e : fexp prec emax e = Z.max (e - 53) (-1074).
Proof. reflexivity. Qed.

(** One [shr_fexp]: the mantissa loses the bits below the exponent the
    format asks for. *)
Lemma shr_fexp_m (m e : Z) (l : location) :
  0 <= m ->
  let E := fexp prec emax (Zdigits2 m + e) in
  let n := Z.max 0 (E - e) in
  shr_m (fst (shr_fexp prec emax m e l)) = m / 2 ^ n
  /\ snd (shr_fexp prec emax m e l) = e + n.
Proof.
  intros Hm E n. unfold shr_fexp, shr. fold E.
  destruct (E - e) as [|p|p] eqn:HEe; cbn [fst snd].
  - subst n. rewrite shr_m_record_of_loc. cbn. rewrite Z.div_1_r. lia.
  - destruct (iter_shr_1_m p (shr_record_of_loc m l)) as [E1 _].
    { now rewrite shr_m_record_of_loc. }
    rewrite E1, shr_m_record_of_loc. subst n.
    rewrite Z.max_r by lia. split; reflexivity.
  - subst n. rewrite shr_m_record_of_loc. rewrite Z.max_l by lia.
    cbn. rewrite Z.div_1_r. lia.
Qed.

(** *** Rounding *)

(** What [binary_round_aux] computes: two shifts with one rounding in
    between. *)
Lemma binary_round_aux_eq s m e l :
  0 <= m ->
  let n := Z.max 0 (fexp prec emax (Zdigits2 m + e) - e) in
  let q := m / 2 ^ n in
  let e1 := e + n in
  exists q1,
    q <= q1 <= q + 1
    /\ (l = loc_Exact -> n = 0 -> q1 = m)
    /\ let n2 := Z.max 0 (fexp prec emax (Zdigits2 q1 + e1) - e1) in
       binary_round_aux prec emax s m e l =
       match q1 / 2 ^ n2 with
       | Z0 => S754_zero s
       | Zpos m2 =>
           if e1 + n2 <=? 971 then S754_finite s m2 (e1 + n2)
           else S754_infinity s
       | Zneg _ => S754_nan
       end.
Proof.
  intros Hm n q e1.
  destruct (shr_fexp_m m e l Hm) as [Hq He]. fold n in Hq, He.
  unfold binary_round_aux.
  destruct (shr_fexp prec emax m e l) as [mrs' e'] eqn:Hs1.
  cbn [fst snd] in Hq, He.
  set (q1 := round_nearest_even (shr_m mrs') (loc_of_shr_record mrs')).
  assert (Hq1 : q <= q1 <= q + 1).
  { subst q1 q. rewrite <- Hq. apply round_nearest_even_bounds. }
  assert (Hq0 : 0 <= q).
  { subst q. apply Z.div_pos; [assumption|]. apply Z.pow_pos_nonneg; lia. }
  exists q1. split; [assumption|]. split.
  - intros -> Hn. subst q1.
    unfold shr_fexp, shr in Hs1.
    destruct (fexp prec emax (Zdigits2 m + e) - e) as [|p|p] eqn:HEe;
      try (injection Hs1 as <- <-; reflexivity).
    subst n. lia.
  - cbv zeta.
    set (n2 := Z.max 0 (fexp prec emax (Zdigits2 q1 + e1) - e1)).
    destruct (shr_fexp_m q1 e' loc_Exact ltac:(lia)) as [Hq2 He2].
    destruct (shr_fexp prec emax q1 e' loc_Exact) as [mrs'' e''] eqn:Hs2.
    cbn [fst snd] in Hq2, He2.
    subst e'. fold e1 in Hq2, He2. fold n2 in Hq2, He2.
    rewrite Hq2, He2. reflexivity.
Qed.

(** A shift keeps a mantissa that is above the smallest subnormal
    positive. *)
Lemma shift_keeps_positive (m e : Z) :
  0 < m -> -1074 < Zdigits2 m + e ->
  let n := Z.max 0 (fexp prec emax (Zdigits2 m + e) - e) in
  0 < m / 2 ^ n /\ Zdigits2 (m / 2 ^ n) + (e + n) = Zdigits2 m + e.
Proof.
  intros Hm Hd n. pose proof (Zdigits2_pos m Hm) as Hpos.
  assert (Hn : 0 <= n < Zdigits2 m).
  { subst n. rewrite fexp64. lia. }
  destruct (Zdigits2_div m n Hm) as [H0 Hdiv]; [lia | lia |].
  split; [assumption | lia].
Qed.

(** Rounding a positive mantissa that is above the smallest subnormal gives
    a number of the same sign that is not zero. *)
Lemma binary_round_aux_positive s m e l :
  0 < m -> -1074 < Zdigits2 m + e ->
  exists m2 e2,
    binary_round_aux prec emax s m e l = S754_finite s m2 e2
    \/ binary_round_aux prec emax s m e l = S754_infinity s.
Proof.
  intros Hm Hd.
  destruct (binary_round_aux_eq s m e l ltac:(lia)) as (q1 & Hq1 & _ & Hr).
  cbv zeta in Hq1, Hr.
  destruct (shift_keeps_positive m e Hm Hd) as [Hq Hdq].
  set (n := Z.max 0 (fexp prec emax (Zdigits2 m + e) - e)) in *.
  assert (Hq1pos : 0 < q1) by lia.
  assert (Hd1 : -1074 < Zdigits2 q1 + (e + n)).
  { pose proof (Zdigits2_mono (m / 2 ^ n) q1 Hq ltac:(lia)). lia. }
  destruct (shift_keeps_positive q1 (e + n) Hq1pos Hd1) as [Hq2 _].
  rewrite Hr.
  destruct (q1 / 2 ^ Z.max 0 (fexp prec emax (Zdigits2 q1 + (e + n)) - (e + n)))
    as [|m2|m2]; try lia.
  exists m2, (e + n + Z.max 0 (fexp prec emax (Zdigits2 q1 + (e + n)) - (e + n))).
  destruct (_ <=? 971); [now left | now right].
Qed.

Lemma canonical64 m e :
  canonical_mantissa prec emax m e = true
  <-> Z.max (Zpos (digits2_pos m) + e - 53) (-1074) = e.
Proof.
  unfold canonical_mantissa. rewrite Z.eqb_eq, fexp64. reflexivity.
Qed.

(** An exponent the format asks for and an exact location: nothing is
    shifted and nothing rounded. *)
Lemma binary_round_aux_exact s (m : positive) e :
  fexp prec emax (Zpos (digits2_pos m) + e) = e ->
  binary_round_aux prec emax s (Zpos m) e loc_Exact
  = if e <=? 971 then S754_finite s m e else S754_infinity s.
Proof.
  intros Hc.
  destruct (binary_round_aux_eq s (Zpos m) e loc_Exact ltac:(lia))
    as (q1 & _ & Hex & Hr).
  cbv zeta in Hex, Hr. cbn [Zdigits2] in Hex, Hr.
  rewrite Hc, Z.sub_diag in Hex, Hr. cbn [Z.max] in Hex, Hr.
  specialize (Hex eq_refl eq_refl). subst q1.
  rewrite Z.add_0_r in Hr. cbn [Zdigits2] in Hr.
  rewrite Hc, Z.sub_diag in Hr. cbn [Z.max] in Hr.
  rewrite Z.pow_0_r, Z.div_1_r, Z.add_0_r in Hr. exact Hr.
Qed.

(** An exponent below the one the format asks for, in the normal range:
    the mantissa is cut to 53 bits and rounded, and what comes out is in
    canonical form. *)
Lemma binary_round_aux_round s (m : positive) e l :
  -1074 <= e -> e < fexp prec emax (Zpos (digits2_pos m) + e) ->
  let E := fexp prec emax (Zpos (digits2_pos m) + e) in
  let q := Zpos m / 2 ^ (E - e) in
  exists q1 m2 e2,
    q <= q1 <= q + 1
    /\ canonical_mantissa prec emax m2 e2 = true
    /\ E <= e2
    /\ Zpos m2 * 2 ^ (e2 - E) = q1
    /\ binary_round_aux prec emax s (Zpos m) e l
       = if e2 <=? 971 then S754_finite s m2 e2 else S754_infinity s.
Proof.
  intros He HE E q.
  destruct (binary_round_aux_eq s (Zpos m) e l ltac:(lia))
    as (q1 & Hq1 & _ & Hr).
  cbv zeta in Hq1, Hr. cbn [Zdigits2] in Hq1, Hr. fold E in Hq1, Hr.
  assert (HEd : E = Zpos (digits2_pos m) + e - 53).
  { subst E. rewrite fexp64 in HE |- *. lia. }
  rewrite (Z.max_r 0 (E - e)) in Hq1, Hr by lia. fold q in Hq1.
  replace (e + (E - e)) with E in Hr by lia.
  destruct (Zdigits2_div (Zpos m) (E - e) ltac:(lia) ltac:(lia))
    as [Hq0 Hdq]; [cbn [Zdigits2]; lia|].
  fold q in Hq0, Hdq. cbn [Zdigits2] in Hdq.
  assert (Hd53 : Zdigits2 q = 53) by lia.
  pose proof (Zdigits2_bounds q Hq0) as [Hlo Hhi]. rewrite Hd53 in Hlo, Hhi.
  change (2 ^ (53 - 1)) with 4503599627370496 in Hlo.
  change (2 ^ 53) with 9007199254740992 in Hhi.
  destruct (Z_lt_le_dec q1 9007199254740992) as [Hlt|Hge].
  - assert (Hd1 : Zdigits2 q1 = 53).
    { assert (Zdigits2 q1 <= 53) by (apply Zdigits2_le; [lia | lia |]; exact Hlt).
      assert (52 < Zdigits2 q1).
      { apply Zdigits2_gt; [lia|].
        change (2 ^ 52) with 4503599627370496. lia. }
      lia. }
    rewrite Hd1, fexp64 in Hr.
    rewrite (Z.max_l 0) in Hr by lia.
    rewrite Z.pow_0_r, Z.div_1_r, Z.add_0_r in Hr.
    destruct q1 as [|p1|p1]; try lia.
    exists (Zpos p1), p1, E. split; [assumption|]. split.
    { apply canonical64. cbn [Zdigits2] in Hd1. rewrite Hd1. lia. }
    split; [lia|]. split; [|exact Hr].
    rewrite Z.sub_diag, Z.pow_0_r. lia.
  - assert (Hq1e : q1 = 9007199254740992) by lia.
    rewrite Hq1e in Hr.
    change (Zdigits2 9007199254740992) with 54 in Hr.
    rewrite fexp64 in Hr.
    replace (Z.max 0 (Z.max (54 + E - 53) (-1074) - E)) with 1 in Hr by lia.
    change (9007199254740992 / 2 ^ 1) with 4503599627370496 in Hr.
    exists q1, 4503599627370496%positive, (E + 1). split; [assumption|]. split.
    { apply canonical64.
      change (Zpos (digits2_pos 4503599627370496)) with 53. lia. }
    split; [lia|]. split; [|exact Hr].
    replace (E + 1 - E) with 1 by lia. rewrite Hq1e. reflexivity.
Qed.

Lemma Zpos_iter_xO (m d : positive) :
  Zpos (Pos.iter xO m d) = Zpos m * 2 ^ Zpos d.
Proof.
  induction d as [|d IH] using Pos.peano_ind.
  - cbn. lia.
  - rewrite Pos.iter_succ, Pos2Z.inj_succ, Z.pow_succ_r by lia.
    rewrite (Pos2Z.inj_xO (Pos.iter xO m d)), IH. ring.
Qed.

(** Aligning to a smaller exponent keeps the value. *)
Lemma shl_align_spec (mx : positive) (ex ex' : Z) :
  let ez := Z.min ex ex' in
  shl_align mx ex ex' = (Z.to_pos (Zpos mx * 2 ^ (ex - ez)), ez).
Proof.
  cbv zeta. unfold shl_align.
  destruct (ex' - ex) as [|p|p] eqn:Hd.
  - rewrite Z.min_l by lia. rewrite Z.sub_diag, Z.pow_0_r, Z.mul_1_r.
    reflexivity.
  - rewrite Z.min_l by lia. rewrite Z.sub_diag, Z.pow_0_r, Z.mul_1_r.
    reflexivity.
  - rewrite Z.min_r by lia. f_equal.
    replace (ex - ex') with (Zpos p) by lia.
    rewrite <- Zpos_iter_xO. reflexivity.
Qed.

Lemma Zdigits2_mul_pow2 (x j : Z) :
  0 < x -> 0 <= j -> Zdigits2 (x * 2 ^ j) = Zdigits2 x + j.
Proof.
  intros Hx Hj.
  pose proof (Zdigits2_bounds x Hx) as [Hlo Hhi].
  pose proof (Zdigits2_pos x Hx) as Hd.
  assert (Hp : 0 < 2 ^ j) by (apply Z.pow_pos_nonneg; lia).
  assert (Zdigits2 (x * 2 ^ j) <= Zdigits2 x + j).
  { apply Zdigits2_le; [nia | lia |].
    rewrite Z.pow_add_r by lia. nia. }
  assert (Zdigits2 x - 1 + j < Zdigits2 (x * 2 ^ j)).
  { apply Zdigits2_gt; [lia|].
    rewrite Z.pow_add_r by lia. nia. }
  lia.
Qed.

(** [binary_round] of a positive mantissa at an exponent not below the
    smallest: the result is in canonical form and lies between the value
    cut at the exponent the format asks for and the next multiple; values
    are counted in units of [2 ^ -1074]. *)
Lemma binary_round_spec s (N : positive) e :
  -1074 <= e ->
  let W := Zpos N * 2 ^ (e + 1074) in
  let k := fexp prec emax (Zpos (digits2_pos N) + e) + 1074 in
  exists m2 e2,
    canonical_mantissa prec emax m2 e2 = true
    /\ (W / 2 ^ k) * 2 ^ k <= Zpos m2 * 2 ^ (e2 + 1074)
       <= (W / 2 ^ k + 1) * 2 ^ k
    /\ binary_round prec emax s N e
       = if e2 <=? 971 then S754_finite s m2 e2 else S754_infinity s.
Proof.
  intros He W k. unfold binary_round. rewrite shl_align_spec.
  set (E := fexp prec emax (Zpos (digits2_pos N) + e)) in *.
  assert (HE : -1074 <= E) by (subst E; rewrite fexp64; lia).
  assert (Hk : 0 < 2 ^ k) by (apply Z.pow_pos_nonneg; lia).
  destruct (Z_le_gt_dec E e) as [Hle|Hgt].
  - rewrite Z.min_r by lia.
    assert (Hmz : 0 < Zpos N * 2 ^ (e - E)).
    { apply Z.mul_pos_pos; [lia|]. apply Z.pow_pos_nonneg; lia. }
    destruct (Zpos N * 2 ^ (e - E)) as [|mz|mz] eqn:Emz; try lia.
    cbn [Z.to_pos].
    assert (Hdz : Zpos (digits2_pos mz) = Zpos (digits2_pos N) + (e - E)).
    { change (Zpos (digits2_pos mz)) with (Zdigits2 (Zpos mz)).
      rewrite <- Emz. rewrite Zdigits2_mul_pow2 by lia. reflexivity. }
    assert (Hc : fexp prec emax (Zpos (digits2_pos mz) + E) = E).
    { rewrite Hdz. replace (Zpos (digits2_pos N) + (e - E) + E)
        with (Zpos (digits2_pos N) + e) by lia. reflexivity. }
    rewrite (binary_round_aux_exact s mz E Hc).
    exists mz, E. split.
    { unfold canonical_mantissa. now rewrite Hc, Z.eqb_refl. }
    split; [|reflexivity].
    assert (HW : W = Zpos mz * 2 ^ k).
    { subst W k. rewrite <- Emz, <- Z.mul_assoc, <- Z.pow_add_r by lia.
      do 2 f_equal. lia. }
    rewrite HW, Z.div_mul by (apply Z.pow_nonzero; lia).
    subst k. nia.
  - rewrite Z.min_l by lia. rewrite Z.sub_diag, Z.pow_0_r, Z.mul_1_r.
    cbn [Z.to_pos].
    destruct (binary_round_aux_round s N e loc_Exact He ltac:(fold E; lia))
      as (q1 & m2 & e2 & Hq1 & Hcan & HEe2 & Hval & Hr).
    fold E in Hq1, HEe2, Hval.
    exists m2, e2. split; [assumption|]. split; [|exact Hr].
    assert (Hq : W / 2 ^ k = Zpos N / 2 ^ (E - e)).
    { subst W k. replace (E + 1074) with ((E - e) + (e + 1074)) by lia.
      rewrite (Z.pow_add_r 2 (E - e) (e + 1074)) by lia.
      apply Z.div_mul_cancel_r.
      - apply Z.pow_nonzero; lia.
      - apply Z.pow_nonzero; lia. }
    assert (Hv : Zpos m2 * 2 ^ (e2 + 1074) = q1 * 2 ^ k).
    { rewrite <- Hval. subst k. rewrite <- Z.mul_assoc, <- Z.pow_add_r by lia.
      do 2 f_equal. lia. }
    rewrite Hv, Hq. nia.
Qed.

(** *** Values and the order *)

Lemma canonical_inv m e :
  canonical_mantissa prec emax m e = true ->
  -1074 <= e /\ Zpos (digits2_pos m) <= 53
  /\ (-1074 < e -> Zpos (digits2_pos m) = 53)
  /\ e = Z.max (Zpos (digits2_pos m) + e - 53) (-1074).
Proof. rewrite canonical64. lia. Qed.

Lemma valid_finite_inv s m e :
  valid_binary (S754_finite s m e) = true ->
  canonical_mantissa prec emax m e = true /\ e <= 971.
Proof.
  cbn [SpecFloat.valid_binary]. unfold bounded.
  rewrite andb_true_iff, Z.leb_le. tauto.
Qed.

Lemma units_pos m e : -1074 <= e -> 0 < units m e.
Proof.
  intros He. unfold units. apply Z.mul_pos_pos; [lia|].
  apply Z.pow_pos_nonneg; lia.
Qed.

Lemma Zdigits2_units m e :
  -1074 <= e -> Zdigits2 (units m e) = Zpos (digits2_pos m) + e + 1074.
Proof.
  intros He. unfold units. rewrite Zdigits2_mul_pow2 by lia.
  cbn [Zdigits2]. lia.
Qed.

(** Among canonical numbers the exponent decides. *)
Lemma canonical_exponent_lt m1 e1 m2 e2 :
  canonical_mantissa prec emax m1 e1 = true ->
  canonical_mantissa prec emax m2 e2 = true ->
  e1 < e2 -> units m1 e1 < units m2 e2.
Proof.
  intros H1 H2 Hlt.
  destruct (canonical_inv _ _ H1) as (He1 & Hd1 & _ & _).
  destruct (canonical_inv _ _ H2) as (He2 & _ & Hd2 & _).
  specialize (Hd2 ltac:(lia)).
  pose proof (digits2_pos_bounds m1) as [_ Hhi].
  pose proof (digits2_pos_bounds m2) as [Hlo _].
  rewrite Hd2 in Hlo.
  assert (H53 : 2 ^ Zpos (digits2_pos m1) <= 2 ^ 53)
    by (apply Z.pow_le_mono_r; lia).
  unfold units.
  assert (Hp1 : 0 < 2 ^ (e1 + 1074)) by (apply Z.pow_pos_nonneg; lia).
  replace (e2 + 1074) with ((e2 - e1 - 1) + 1 + (e1 + 1074)) by lia.
  rewrite (Z.pow_add_r 2 (e2 - e1 - 1 + 1) (e1 + 1074)) by lia.
  rewrite (Z.pow_add_r 2 (e2 - e1 - 1) 1) by lia.
  assert (Hp2 : 1 <= 2 ^ (e2 - e1 - 1))
    by (pose proof (Z.pow_pos_nonneg 2 (e2 - e1 - 1)); lia).
  change (2 ^ (53 - 1)) with 4503599627370496 in Hlo.
  change (2 ^ 53) with 9007199254740992 in H53.
  change (2 ^ 1) with 2.
  assert (Zpos m1 < 2 * Zpos m2) by lia.
  assert (Zpos m1 * 2 ^ (e1 + 1074) < 2 * Zpos m2 * 2 ^ (e1 + 1074))
    by (apply Z.mul_lt_mono_pos_r; lia).
  nia.
Qed.

Lemma units_le_mantissa m1 m2 e :
  -1074 <= e -> (units m1 e <= units m2 e <-> (m1 <= m2)%positive).
Proof.
  intros He. unfold units.
  assert (0 < 2 ^ (e + 1074)) by (apply Z.pow_pos_nonneg; lia).
  rewrite <- Z.mul_le_mono_pos_r by assumption. reflexivity.
Qed.

Lemma SFleb_units_pos m1 e1 m2 e2 :
  canonical_mantissa prec emax m1 e1 = true ->
  canonical_mantissa prec emax m2 e2 = true ->
  units m1 e1 <= units m2 e2 ->
  SFleb (S754_finite false m1 e1) (S754_finite false m2 e2) = true.
Proof.
  intros H1 H2 Hle. unfold SFleb, SFcompare.
  destruct (Z.compare_spec e1 e2) as [->|Hlt|Hgt]; [|reflexivity|].
  - fold (Pos.compare m1 m2).
    destruct (Pos.compare_spec m1 m2) as [|Hlt|Hgt]; try reflexivity.
    destruct (canonical_inv _ _ H2) as (He2 & _).
    apply units_le_mantissa in Hle; [lia | assumption].
  - pose proof (canonical_exponent_lt _ _ _ _ H2 H1 Hgt). lia.
Qed.

Lemma SFleb_units_neg m1 e1 m2 e2 :
  canonical_mantissa prec emax m1 e1 = true ->
  canonical_mantissa prec emax m2 e2 = true ->
  units m2 e2 <= units m1 e1 ->
  SFleb (S754_finite true m1 e1) (S754_finite true m2 e2) = true.
Proof.
  intros H1 H2 Hle. unfold SFleb, SFcompare.
  destruct (Z.compare_spec e1 e2) as [->|Hlt|Hgt]; [| |reflexivity].
  - fold (Pos.compare m1 m2).
    destruct (Pos.compare_spec m1 m2) as [|Hlt|Hgt]; try reflexivity.
    destruct (canonical_inv _ _ H2) as (He2 & _).
    apply units_le_mantissa in Hle; [lia | assumption].
  - pose proof (canonical_exponent_lt _ _ _ _ H1 H2 Hlt). lia.
Qed.

(** A canonical number below [W] is not above [W] cut at the exponent
    the format asks for [W]. *)
Lemma units_le_floor m e W :
  canonical_mantissa prec emax m e = true ->
  units m e <= W ->
  let k := fexp prec emax (Zdigits2 W - 1074) + 1074 in
  units m e <= (W / 2 ^ k) * 2 ^ k.
Proof.
  intros Hc Hle k.
  destruct (canonical_inv _ _ Hc) as (He & Hd & _ & Hfe).
  pose proof (units_pos m e He) as Hu.
  pose proof (Zdigits2_mono _ _ Hu Hle) as Hdd.
  rewrite Zdigits2_units in Hdd by assumption.
  set (dW := Zdigits2 W - 1074) in *.
  assert (HE : k = Z.max (dW - 53) (-1074) + 1074)
    by (subst k; now rewrite fexp64).
  assert (Hk0 : 0 <= k) by lia.
  assert (Hpk : 0 < 2 ^ k) by (apply Z.pow_pos_nonneg; lia).
  destruct (Z.eq_dec (e + 1074) k) as [Heq|Hne].
  - unfold units in *. rewrite Heq in *.
    assert (Zpos m <= W / 2 ^ k)
      by (apply Z.div_le_lower_bound; lia).
    nia.
  - assert (Hlt : e + 1074 < k) by lia.
    assert (HdW : k = dW - 53 + 1074) by lia.
    pose proof (Zdigits2_bounds W ltac:(lia)) as [Hlo _].
    pose proof (Zdigits2_bounds (units m e) Hu) as [_ Hhi].
    rewrite Zdigits2_units in Hhi by assumption.
    assert (H1 : 2 ^ (Zpos (digits2_pos m) + e + 1074) <= 2 ^ (52 + k))
      by (apply Z.pow_le_mono_r; lia).
    assert (H2 : 2 ^ (52 + k) <= W).
    { replace (52 + k) with (Zdigits2 W - 1) by lia. assumption. }
    assert (H3 : 2 ^ 52 <= W / 2 ^ k).
    { apply Z.div_le_lower_bound; [lia|].
      rewrite <- Z.pow_add_r by lia. replace (k + 52) with (52 + k) by lia.
      assumption. }
    rewrite (Z.pow_add_r 2 52 k) in H1 by lia.
    assert (2 ^ 52 * 2 ^ k <= W / 2 ^ k * 2 ^ k)
      by (apply Z.mul_le_mono_nonneg_r; lia).
    lia.
Qed.

(** A canonical number above [W] is not below the next multiple above [W]
    cut at the exponent the format asks for [W]. *)
Lemma units_ge_ceil m e W :
  canonical_mantissa prec emax m e = true ->
  0 < W -> W < units m e ->
  let k := fexp prec emax (Zdigits2 W - 1074) + 1074 in
  (W / 2 ^ k + 1) * 2 ^ k <= units m e.
Proof.
  intros Hc HW Hlt k.
  destruct (canonical_inv _ _ Hc) as (He & Hd & _ & Hfe).
  pose proof (Zdigits2_mono _ _ HW (Z.lt_le_incl _ _ Hlt)) as Hdd.
  rewrite Zdigits2_units in Hdd by assumption.
  set (dW := Zdigits2 W - 1074) in *.
  assert (HE : k = Z.max (dW - 53) (-1074) + 1074)
    by (subst k; now rewrite fexp64).
  assert (Hk0 : 0 <= k <= e + 1074) by lia.
  assert (Hpk : 0 < 2 ^ k) by (apply Z.pow_pos_nonneg; lia).
  assert (Hu : units m e = (Zpos m * 2 ^ (e + 1074 - k)) * 2 ^ k).
  { unfold units. rewrite <- Z.mul_assoc, <- Z.pow_add_r by lia.
    do 2 f_equal. lia. }
  set (c := Zpos m * 2 ^ (e + 1074 - k)) in *.
  assert (W / 2 ^ k < c).
  { apply Z.div_lt_upper_bound; [assumption|]. lia. }
  rewrite Hu. nia.
Qed.

(** *** Adding a positive number *)

Lemma units_align m e ez :
  ez <= e -> -1074 <= ez ->
  Zpos (Z.to_pos (Zpos m * 2 ^ (e - ez))) * 2 ^ (ez + 1074) = units m e.
Proof.
  intros Hle He.
  assert (0 < 2 ^ (e - ez)) by (apply Z.pow_pos_nonneg; lia).
  rewrite Z2Pos.id by nia.
  unfold units. rewrite <- Z.mul_assoc, <- Z.pow_add_r by lia.
  do 2 f_equal. lia.
Qed.

(** The sum of a finite number and a positive finite number is not below
    the first, and is not the negative infinity. *)
Lemma SFadd_finite_pos sx mx ex md ed :
  canonical_mantissa prec emax mx ex = true -> ex <= 971 ->
  canonical_mantissa prec emax md ed = true ->
  SFleb (S754_finite sx mx ex)
    (SFadd prec emax (S754_finite sx mx ex) (S754_finite false md ed)) = true
  /\ SFltb (S754_infinity true)
       (SFadd prec emax (S754_finite sx mx ex) (S754_finite false md ed))
     = true.
Proof.
  intros Hcx Hbx Hcd.
  destruct (canonical_inv _ _ Hcx) as (Hex & _).
  destruct (canonical_inv _ _ Hcd) as (Hed & _).
  unfold SFadd. set (ez := Z.min ex ed).
  rewrite !shl_align_spec. cbn [fst cond_Zopp].
  replace (Z.min ex ez) with ez by lia.
  replace (Z.min ed ez) with ez by lia.
  pose proof (units_align mx ex ez ltac:(lia) ltac:(lia)) as HA.
  pose proof (units_align md ed ez ltac:(lia) ltac:(lia)) as HB.
  set (A := Z.to_pos (Zpos mx * 2 ^ (ex - ez))) in *.
  set (B := Z.to_pos (Zpos md * 2 ^ (ed - ez))) in *.
  assert (Hp : 0 < 2 ^ (ez + 1074)) by (apply Z.pow_pos_nonneg; lia).
  destruct sx.
  - cbn [cond_Zopp].
    destruct (- Zpos A + Zpos B) as [|n|n] eqn:HN; cbn [binary_normalize].
    + split; reflexivity.
    + destruct (binary_round_spec false n ez ltac:(lia))
        as (m2 & e2 & _ & _ & ->).
      destruct (e2 <=? 971); split; reflexivity.
    + destruct (binary_round_spec true n ez ltac:(lia))
        as (m2 & e2 & Hc2 & [_ Hhi] & ->).
      assert (HW : Zpos n * 2 ^ (ez + 1074) < units mx ex).
      { rewrite <- HA. apply Z.mul_lt_mono_pos_r; lia. }
      fold (units n ez) in Hhi, HW.
      pose proof (units_ge_ceil mx ex (units n ez) Hcx
                    (units_pos n ez ltac:(lia)) HW) as Hceil.
      cbv zeta in Hceil. rewrite Zdigits2_units in Hceil by lia.
      replace (Zpos (digits2_pos n) + ez + 1074 - 1074)
        with (Zpos (digits2_pos n) + ez) in Hceil by lia.
      fold (units m2 e2) in Hhi.
      assert (Hle : units m2 e2 <= units mx ex) by lia.
      assert (He2 : e2 <= 971).
      { destruct (Z_le_gt_dec e2 971) as [|Hgt]; [assumption|].
        pose proof (canonical_exponent_lt mx ex m2 e2 Hcx Hc2 ltac:(lia)).
        lia. }
      rewrite (proj2 (Z.leb_le _ _) He2).
      split; [|reflexivity].
      now apply SFleb_units_neg.
  - cbn [cond_Zopp]. cbn [Z.add binary_normalize].
    destruct (binary_round_spec false (A + B) ez ltac:(lia))
      as (m2 & e2 & Hc2 & [Hlo _] & ->).
    destruct (e2 <=? 971); [|split; reflexivity].
    split; [|reflexivity].
    apply SFleb_units_pos; try assumption.
    assert (HW : units mx ex <= units (A + B) ez).
    { rewrite <- HA. unfold units. rewrite Pos2Z.inj_add.
      apply Z.mul_le_mono_nonneg_r; lia. }
    pose proof (units_le_floor mx ex (units (A + B) ez) Hcx HW) as Hfloor.
    cbv zeta in Hfloor. rewrite Zdigits2_units in Hfloor by lia.
    replace (Zpos (digits2_pos (A + B)) + ez + 1074 - 1074)
      with (Zpos (digits2_pos (A + B)) + ez) in Hfloor by lia.
    fold (units (A + B) ez) in Hlo. fold (units m2 e2) in Hlo.
    lia.
Qed.

(** *** The operations on [float] *)

Lemma ltb_0_positive (d : float) :
  (0 <? d)%float = sf_positive (Prim2SF d).
Proof.
  rewrite ltb_spec. change (Prim2SF 0) with (S754_zero false).
  destruct (Prim2SF d) as [[|]|[|]| |[|] m e]; reflexivity.
Qed.

Lemma leb_0_nonneg (b : float) :
  (0 <=? b)%float = sf_nonneg (Prim2SF b).
Proof.
  rewrite leb_spec. change (Prim2SF 0) with (S754_zero false).
  destruct (Prim2SF b) as [[|]|[|]| |[|] m e]; reflexivity.
Qed.

Lemma ltb_ninf_above (o : float) :
  (neg_infinity <? o)%float = sf_above_ninf (Prim2SF o).
Proof.
  rewrite ltb_spec. change (Prim2SF neg_infinity) with (S754_infinity true).
  destruct (Prim2SF o) as [[|]|[|]| |[|] m e]; reflexivity.
Qed.

Lemma ltb_inf_finite (x : float) :
  (0 <? x)%float = true -> (x <? infinity)%float = true ->
  exists m e, Prim2SF x = S754_finite false m e.
Proof.
  rewrite !ltb_spec. change (Prim2SF 0) with (S754_zero false).
  change (Prim2SF infinity) with (S754_infinity false).
  destruct (Prim2SF x) as [[|]|[|]| |[|] m e]; try discriminate.
  intros _ _. now exists m, e.
Qed.

Lemma SFleb_positive m e R :
  SFleb (S754_finite false m e) R = true -> sf_positive R = true.
Proof.
  destruct R as [[|]|[|]| |[|] m' e']; try discriminate; reflexivity.
Qed.

(** Adding a positive number to a number that is not the negative infinity
    gives a number not below it, and again not the negative infinity. *)
Lemma add_pos_ge (o d : float) :
  (neg_infinity <? o)%float = true -> (0 <? d)%float = true ->
  (o <=? o + d)%float = true /\ (neg_infinity <? o + d)%float = true.
Proof.
  rewrite leb_spec, !ltb_ninf_above, ltb_0_positive, add_spec.
  pose proof (Prim2SF_valid o) as Hvo. pose proof (Prim2SF_valid d) as Hvd.
  destruct (Prim2SF d) as [[|]|[|]| |[|] md ed]; try discriminate.
  - destruct (Prim2SF o) as [[|]|[|]| |[|] mo eo]; try discriminate;
      intros _ _; split; reflexivity.
  - destruct (Prim2SF o) as [[|]|[|]| |sx mo eo]; try discriminate;
      intros _ _; try (split; reflexivity).
    destruct (valid_finite_inv _ _ _ Hvo) as [Hco Hbo].
    destruct (valid_finite_inv _ _ _ Hvd) as [Hcd _].
    destruct (SFadd_finite_pos sx mo eo md ed Hco Hbo Hcd) as [Hle Hlt].
    split; [exact Hle|].
    unfold SF64add.
    destruct (SFadd prec emax (S754_finite sx mo eo) (S754_finite false md ed))
      as [[|]|[|]| |[|] m e]; try discriminate; reflexivity.
Qed.

(** Adding a number that is not negative to a positive number gives a
    positive number. *)
Lemma add_pos_nonneg (d b : float) :
  (0 <? d)%float = true -> (0 <=? b)%float = true ->
  (0 <? d + b)%float = true.
Proof.
  rewrite !ltb_0_positive, leb_0_nonneg, add_spec.
  pose proof (Prim2SF_valid d) as Hvd. pose proof (Prim2SF_valid b) as Hvb.
  destruct (Prim2SF d) as [[|]|[|]| |[|] md ed]; try discriminate.
  - destruct (Prim2SF b) as [[|]|[|]| |[|] mb eb]; try discriminate;
      intros _ _; reflexivity.
  - destruct (Prim2SF b) as [[|]|[|]| |[|] mb eb]; try discriminate;
      intros _ _; try reflexivity.
    destruct (valid_finite_inv _ _ _ Hvd) as [Hcd Hbd].
    destruct (valid_finite_inv _ _ _ Hvb) as [Hcb _].
    destruct (SFadd_finite_pos false md ed mb eb Hcd Hbd Hcb) as [Hle _].
    exact (SFleb_positive _ _ _ Hle).
Qed.

Lemma Zdigits2_mul (a b : Z) :
  0 < a -> 0 < b -> Zdigits2 a + Zdigits2 b - 1 <= Zdigits2 (a * b).
Proof.
  intros Ha Hb.
  pose proof (Zdigits2_bounds a Ha) as [Hla _].
  pose proof (Zdigits2_bounds b Hb) as [Hlb _].
  pose proof (Zdigits2_pos a Ha). pose proof (Zdigits2_pos b Hb).
  assert (Zdigits2 a - 1 + (Zdigits2 b - 1) < Zdigits2 (a * b)).
  { apply Zdigits2_gt; [lia|]. rewrite Z.pow_add_r by lia.
    apply Z.mul_le_mono_nonneg; try assumption;
      apply Z.pow_nonneg; lia. }
  lia.
Qed.

(** The product of a positive number and a finite number that is at least
    one is positive. *)
Lemma mul_pos (r y : float) my ey :
  (0 <? r)%float = true ->
  Prim2SF y = S754_finite false my ey -> 1 <= Zpos (digits2_pos my) + ey ->
  (0 <? r * y)%float = true.
Proof.
  rewrite !ltb_0_positive, mul_spec. intros Hr Hy Hdy. rewrite Hy.
  pose proof (Prim2SF_valid r) as Hvr.
  destruct (Prim2SF r) as [[|]|[|]| |[|] mr er]; try discriminate;
    [reflexivity|].
  destruct (valid_finite_inv _ _ _ Hvr) as [Hcr _].
  destruct (canonical_inv _ _ Hcr) as (Her & _).
  unfold SF64mul, SFmul. cbn [xorb].
  destruct (binary_round_aux_positive false (Zpos (mr * my)) (er + ey)
              loc_Exact ltac:(lia)) as (m2 & e2 & [-> | ->]);
    [|reflexivity|reflexivity].
  pose proof (Zdigits2_mul (Zpos mr) (Zpos my) ltac:(lia) ltac:(lia)) as Hm.
  rewrite Pos2Z.inj_mul. cbn [Zdigits2] in Hm |- *.
  pose proof (Zdigits2_pos (Zpos mr) ltac:(lia)) as Hdr.
  cbn [Zdigits2] in Hdr. lia.
Qed.

(** One over a positive finite number is positive. *)
Lemma div_one_pos (fps : float) :
  (0 <? fps)%float = true -> (fps <? infinity)%float = true ->
  (0 <? 1 / fps)%float = true.
Proof.
  intros Hpos Hfin.
  destruct (ltb_inf_finite fps Hpos Hfin) as (m2 & e2 & Hf).
  rewrite ltb_0_positive, div_spec, Hf.
  pose proof (Prim2SF_valid fps) as Hv. rewrite Hf in Hv.
  destruct (valid_finite_inv _ _ _ Hv) as [Hc Hb].
  destruct (canonical_inv _ _ Hc) as (He & Hd & _).
  pose proof (digits2_pos_bounds m2) as [_ Hhi].
  change (Prim2SF 1) with (S754_finite false 4503599627370496 (-52)).
  unfold SF64div, SFdiv, SFdiv_core_binary. cbn [xorb Zdigits2].
  change (Zpos (digits2_pos 4503599627370496)) with 53.
  set (d2 := Zpos (digits2_pos m2)) in *.
  assert (Hd2 : 1 <= d2) by (subst d2; lia).
  rewrite fexp64.
  set (e' := Z.min (Z.max (53 + -52 - (d2 + e2) - 53) (-1074)) (-52 - e2)).
  assert (Hs : 1 <= -52 - e2 - e' /\ d2 <= 52 + (-52 - e2 - e')) by lia.
  destruct (-52 - e2 - e') as [|p|p] eqn:Es; try lia.
  rewrite Z.shiftl_mul_pow2 by lia.
  change 4503599627370496 with (2 ^ 52).
  rewrite <- Z.pow_add_r by lia.
  destruct (Z.div_eucl (2 ^ (52 + Zpos p)) (Zpos m2)) as [q r] eqn:Hdiv.
  assert (Hq : q = 2 ^ (52 + Zpos p) / Zpos m2)
    by (unfold Z.div; now rewrite Hdiv).
  assert (Hlow : 2 ^ (52 + Zpos p - d2) <= q).
  { rewrite Hq. apply Z.div_le_lower_bound; [lia|].
    replace (52 + Zpos p) with (d2 + (52 + Zpos p - d2)) at 2 by lia.
    rewrite (Z.pow_add_r 2 d2) by lia.
    apply Z.mul_le_mono_nonneg_r; [apply Z.pow_nonneg; lia | lia]. }
  assert (Hq0 : 0 < q).
  { pose proof (Z.pow_pos_nonneg 2 (52 + Zpos p - d2)). lia. }
  pose proof (Zdigits2_gt q (52 + Zpos p - d2) ltac:(lia) Hlow) as Hdq.
  destruct (binary_round_aux_positive false q e'
              (new_location (Zpos m2) r) Hq0 ltac:(lia))
    as (m3 & e3 & [-> | ->]); reflexivity.
Qed.

(** A positive integer converts to a finite number that is at least one,
    unless it overflows. *)
Lemma binary64_of_int_pos (iv : Z) (y : float) :
  0 < iv -> binary64_of_int iv = Some y ->
  exists my ey,
    Prim2SF y = S754_finite false my ey
    /\ 1 <= Zpos (digits2_pos my) + ey.
Proof.
  intros Hiv. unfold binary64_of_int.
  destruct iv as [|n|n]; try lia. cbn [binary_normalize].
  destruct (binary_round_spec false n 0 ltac:(lia))
    as (m2 & e2 & Hc2 & [Hlo _] & ->).
  destruct (canonical_inv _ _ Hc2) as (He2 & _).
  destruct (e2 <=? 971) eqn:Hb; [|discriminate].
  assert (Hv : valid_binary (S754_finite false m2 e2) = true).
  { cbn [SpecFloat.valid_binary]. unfold bounded.
    change (emax - prec) with 971. now rewrite Hc2, Hb. }
  pose proof (Prim2SF_SF2Prim _ Hv) as Hx.
  set (x := SF2Prim (S754_finite false m2 e2)) in *. clearbody x.
  destruct (_ =? _)%float; [discriminate|]. intros Hy. injection Hy as <-.
  exists m2, e2. split; [exact Hx|].
  fold (units n 0) in Hlo. fold (units m2 e2) in Hlo.
  assert (Hone : canonical_mantissa prec emax 4503599627370496 (-52) = true)
    by reflexivity.
  assert (H1 : units 4503599627370496 (-52) <= units n 0).
  { unfold units. change (Zpos 4503599627370496 * 2 ^ (-52 + 1074))
      with (1 * 2 ^ (0 + 1074)).
    apply Z.mul_le_mono_nonneg_r; [apply Z.pow_nonneg|]; lia. }
  pose proof (units_le_floor _ _ _ Hone H1) as Hfloor.
  cbv zeta in Hfloor. rewrite Zdigits2_units in Hfloor by lia.
  replace (Zpos (digits2_pos n) + 0 + 1074 - 1074)
    with (Zpos (digits2_pos n) + 0) in Hfloor by lia.
  assert (H2 : 2 ^ 1074 <= units m2 e2).
  { change (2 ^ 1074) with (units 4503599627370496 (-52)). lia. }
  pose proof (Zdigits2_gt _ 1074 ltac:(lia) H2) as Hd.
  rewrite Zdigits2_units in Hd by assumption. lia.
Qed.

Set Implicit Arguments.

(** ** Exact arithmetic *)

Section ExactArithmetic.

Variable cv2 : string -> VideoCapture (F:=Q).

Local Open Scope Q_scope.

Lemma Qlt_plus_pos (x d : Q) : 0 < d -> x < x + d.
Proof.
  intros Hd. rewrite <- (Qplus_0_r x) at 1. now apply Qplus_lt_r.
Qed.

Lemma Qplus_pos_nonneg (x y : Q) : 0 < x -> 0 <= y -> 0 < x + y.
Proof.
  intros Hx Hy. rewrite <- (Qplus_0_r 0).
  now apply Qplus_lt_le_compat.
Qed.

Lemma base_duration_positive (fps d : Q) (iv : Z) :
  0 < fps -> (0 < iv)%Z -> base_duration fps iv = Some d -> 0 < d.
Proof.
  intros Hfps Hiv Hd. cbn in Hd. injection Hd as <-.
  apply Qmult_lt_0_compat.
  - unfold Qdiv. rewrite Qmult_1_l. now apply Qinv_lt_0_compat.
  - change 0 with (inject_Z 0). now rewrite <- Zlt_Qlt.
Qed.

Lemma base_duration_exact (fps d : Q) (iv : Z) :
  ~ fps == 0 -> base_duration fps iv = Some d -> d == inject_Z iv / fps.
Proof.
  intros Hfps Hd. cbn in Hd. injection Hd as <-. now field.
Qed.

Lemma running_increasing (ds : list Q) (o : Q) :
  (forall d, In d ds -> 0 < d) ->
  forall i x y,
    nth_error (o :: running o ds) i = Some x ->
    nth_error (o :: running o ds) (i + 1) = Some y -> x < y.
Proof.
  intros Hpos i x y Hx Hy. rewrite Nat.add_1_r in Hy.
  destruct (nth_error ds i) as [d|] eqn:Hd.
  - destruct (running_step ds o i Hd) as (x' & Hx' & Hy').
    rewrite Hx in Hx'. rewrite Hy in Hy'.
    injection Hx' as <-. injection Hy' as ->.
    apply Qlt_plus_pos, Hpos. eapply nth_error_In; eassumption.
  - apply nth_error_None in Hd.
    assert (nth_error (o :: running o ds) (S i) = None) as Hnone.
    { apply nth_error_None. cbn [length]. rewrite length_running. lia. }
    congruence.
Qed.

Lemma returned_positive vid_file oo interval bv av calls fn on du calls'
    b a :
  get_frame_time_info cv2 vid_file oo interval bv av calls
  = (Returned (fn, on, du), calls') ->
  0 < frame_rate (cv2 vid_file) ->
  float_of bv = Returned b -> float_of av = Returned a ->
  0 <= b -> 0 <= a ->
  (forall d, In d du -> 0 < d)
  /\ (forall i x y, nth_error on i = Some x ->
                    nth_error on (i + 1) = Some y ->
                    exists x' y', float_of x = Returned x'
                                  /\ float_of y = Returned y' /\ x' < y').
Proof.
  intros Hrun Hfps Hbv Hav Hb Ha.
  destruct (returned_inv _ _ _ _ _ _ _ Hrun)
    as (iv & d & b' & a' & _ & Hiv & _ & Hd & _ & _ & Hb' & Ha' & Hdu & _).
  assert (b' = b) as -> by congruence.
  assert (a' = a) as -> by congruence.
  pose proof (base_duration_positive Hfps Hiv Hd) as Hpos.
  assert (Hall : forall x, In x du -> 0 < x).
  { intros x Hin. rewrite Hdu in Hin.
    destruct (In_adjusted _ _ _ _ _ Hin) as [ -> | [ -> | [ -> | -> ] ] ];
      cbn [fadd exactQ]; auto using Qplus_pos_nonneg. }
  split; [assumption|].
  intros i x y Hx Hy.
  destruct (returned_onset_float _ _ _ _ _ _ _ Hrun) as [o Ho].
  { assert (i + 1 < length on)%nat; [|lia].
    apply nth_error_Some. congruence. }
  rewrite (returned_onsets _ _ _ _ _ _ _ Hrun Ho) in Hx, Hy.
  destruct (onsets_floats_inv _ _ _ Ho Hx) as (x' & Hx' & Hfx).
  destruct (onsets_floats_inv _ _ _ Ho Hy) as (y' & Hy' & Hfy).
  exists x', y'. split; [assumption|]. split; [assumption|].
  eapply running_increasing; [|eassumption|eassumption].
  intros z Hin. apply Hall. now apply In_removelast.
Qed.

End ExactArithmetic.

(** ** The order of a schedule in [binary64] *)

Section Binary64Ordering.

Variable cv2 : string -> VideoCapture (F:=float).

Lemma base_duration_positive64 (fps d : float) (iv : Z) :
  (0 <? fps)%float = true -> (fps <? infinity)%float = true -> 0 < iv ->
  base_duration fps iv = Some d -> (0 <? d)%float = true.
Proof.
  intros Hpos Hfin Hiv. unfold base_duration. cbn [of_int binary64].
  destruct (binary64_of_int iv) as [y|] eqn:Hy; [|discriminate].
  intros Hd. injection Hd as <-.
  destruct (binary64_of_int_pos iv y Hiv Hy) as (my & ey & Hsf & Hdy).
  cbn [fmul fdiv fone binary64].
  apply (mul_pos _ y my ey); [|assumption|assumption].
  now apply div_one_pos.
Qed.

(** Each running sum is not below the one before it, as long as every
    duration is positive and the start is not the negative infinity. *)
Lemma running_nondecreasing64 (ds : list float) :
  (forall d, In d ds -> (0 <? d)%float = true) ->
  forall o, (neg_infinity <? o)%float = true ->
  forall i x y,
    nth_error (o :: running o ds) i = Some x ->
    nth_error (o :: running o ds) (i + 1) = Some y ->
    (x <=? y)%float = true.
Proof.
  induction ds as [|d ds IH]; intros Hpos o Ho i x y Hx Hy;
    rewrite Nat.add_1_r in Hy.
  - cbn [running] in Hy. destruct i; discriminate.
  - cbn [running] in Hx, Hy.
    destruct (add_pos_ge o d Ho (Hpos d (or_introl eq_refl))) as [Hle Hab].
    destruct i as [|i].
    + cbn [nth_error] in Hx, Hy. injection Hx as <-. injection Hy as <-.
      exact Hle.
    + cbn [nth_error] in Hx. change (nth_error (o :: ?l) (S ?k))
        with (nth_error l k) in Hy.
      apply (IH (fun d' Hin => Hpos d' (or_intror Hin)) (o + d)%float Hab i);
        [exact Hx|]. rewrite Nat.add_1_r. exact Hy.
Qed.

Lemma returned_positive64 vid_file oo interval bv av calls fn on du calls'
    b a :
  get_frame_time_info cv2 vid_file oo interval bv av calls
  = (Returned (fn, on, du), calls') ->
  (0 <? frame_rate (cv2 vid_file))%float = true ->
  (frame_rate (cv2 vid_file) <? infinity)%float = true ->
  float_of bv = Returned b -> float_of av = Returned a ->
  (0 <=? b)%float = true -> (0 <=? a)%float = true ->
  (forall d, In d du -> (0 <? d)%float = true)
  /\ (forall o, float_of oo = Returned o ->
        (neg_infinity <? o)%float = true ->
        forall i x y, nth_error on i = Some x ->
                      nth_error on (i + 1) = Some y ->
                      exists x' y', float_of x = Returned x'
                                    /\ float_of y = Returned y'
                                    /\ (x' <=? y')%float = true).
Proof.
  intros Hrun Hfps Hfin Hbv Hav Hb Ha.
  destruct (returned_inv _ _ _ _ _ _ _ Hrun)
    as (iv & d & b' & a' & _ & Hiv & _ & Hd & _ & _ & Hb' & Ha' & Hdu & _).
  assert (b' = b) as -> by congruence.
  assert (a' = a) as -> by congruence.
  pose proof (base_duration_positive64 Hfps Hfin Hiv Hd) as Hpos.
  assert (Hall : forall x, In x du -> (0 <? x)%float = true).
  { intros x Hin. rewrite Hdu in Hin.
    destruct (In_adjusted _ _ _ _ _ Hin) as [ -> | [ -> | [ -> | -> ] ] ];
      cbn [fadd binary64]; auto using add_pos_nonneg. }
  split; [assumption|].
  intros o Ho Habove i x y Hx Hy.
  rewrite (returned_onsets _ _ _ _ _ _ _ Hrun Ho) in Hx, Hy.
  destruct (onsets_floats_inv _ _ _ Ho Hx) as (x' & Hx' & Hfx).
  destruct (onsets_floats_inv _ _ _ Ho Hy) as (y' & Hy' & Hfy).
  exists x', y'. split; [assumption|]. split; [assumption|].
  eapply running_nondecreasing64; [|exact Habove|eassumption|eassumption].
  intros z Hin. apply Hall. now apply In_removelast.
Qed.

End Binary64Ordering.


(** ** [gen_dmask] *)

Section GenDmaskProperties.

Context {M : Type} `{MaskLike M}.
Implicit Types (m : M) (layers : list string) (channels : list Z).

Lemma gen_dmask_both layers (channels : option (list Z)) file m :
  gen_dmask (Some layers) channels (Some file) m
  = (Raised (AssertionError xor_msg), m).
Proof. reflexivity. Qed.

Lemma gen_dmask_neither (channels : option (list Z)) m :
  gen_dmask None channels None m = (Raised (AssertionError xor_msg), m).
Proof. reflexivity. Qed.

Lemma gen_dmask_file file m :
  gen_dmask None None (Some file) m = returning (Mask_load file m).
Proof.
  unfold gen_dmask, bind, py_assert, returning. cbn.
  destruct (Mask_load file m) as [[[]|e] m']; reflexivity.
Qed.

Lemma gen_dmask_channels_without_layers channels file m :
  gen_dmask None (Some channels) file m
  = (Raised (AssertionError match file with
                            | Some _ => channels_msg
                            | None => xor_msg
                            end), m).
Proof. destruct file; reflexivity. Qed.

Lemma gen_dmask_empty (channels : option (list Z)) file m :
  gen_dmask (Some []) channels file m
  = (Raised match file with
            | Some _ => AssertionError xor_msg
            | None => ValueError empty_msg
            end, m).
Proof. destruct file; reflexivity. Qed.

Lemma gen_dmask_mismatch layers channels file m :
  (1 < length layers)%nat -> length channels <> length layers ->
  gen_dmask (Some layers) (Some channels) file m
  = (Raised match file with
            | Some _ => AssertionError xor_msg
            | None => ValueError length_msg
            end, m).
Proof.
  intros Hlen Hneq. destruct file; [reflexivity|].
  unfold gen_dmask, bind, py_assert. cbn [is_None xorb ret].
  destruct (Nat.eqb_spec (length layers) 0) as [E0|E0]; [lia|].
  destruct (Nat.eqb_spec (length layers) 1) as [E1|E1]; [lia|].
  destruct (Nat.eqb_spec (length layers) (length channels)) as [E|E]; [congruence|].
  reflexivity.
Qed.

Lemma gen_dmask_paired layers channels m :
  (1 < length layers)%nat -> length channels = length layers ->
  gen_dmask (Some layers) (Some channels) None m
  = returning
      (for_each (combine layers channels)
         (fun _ '(layer, chn) => Mask_set layer (Some [chn])) tt m).
Proof.
  intros Hlen Heq.
  unfold gen_dmask, bind, py_assert, returning. cbn [is_None xorb ret].
  destruct (Nat.eqb_spec (length layers) 0) as [E0|E0]; [lia|].
  destruct (Nat.eqb_spec (length layers) 1) as [E1|E1]; [lia|].
  destruct (Nat.eqb_spec (length layers) (length channels)) as [E|E]; [|congruence].
  destruct (for_each _ _ tt m) as [[[]|e] m']; reflexivity.
Qed.

Lemma gen_dmask_single layer (channels : option (list Z)) m :
  gen_dmask (Some [layer]) channels None m
  = returning (Mask_set layer channels m).
Proof.
  unfold gen_dmask, bind, py_assert, returning. cbn [is_None xorb ret length Nat.eqb].
  rewrite getitem_first.
  destruct (Mask_set layer channels m) as [[[]|e] m']; reflexivity.
Qed.

Lemma gen_dmask_all_channels layers m :
  (1 < length layers)%nat ->
  gen_dmask (Some layers) None None m
  = returning (for_each layers (fun _ layer => Mask_set layer None) tt m).
Proof.
  intros Hlen.
  unfold gen_dmask, bind, py_assert, returning. cbn [is_None xorb ret].
  destruct (Nat.eqb_spec (length layers) 0) as [E0|E0]; [lia|].
  destruct (Nat.eqb_spec (length layers) 1) as [E1|E1]; [lia|].
  destruct (for_each _ _ tt m) as [[[]|e] m']; reflexivity.
Qed.

(** A loop of calls on the mask is the replay of those calls. *)
Lemma for_each_replay {A} (f : A -> mask_call) (xs : list A) m :
  for_each xs
    (fun _ x => match f x with
                | call_set layer channels => Mask_set layer channels
                | call_load dmask_file => Mask_load dmask_file
                end) tt m
  = replay (map f xs) m.
Proof.
  unfold replay. revert m.
  induction xs as [|x xs IH]; intros m; [reflexivity|].
  cbn [map for_each]. unfold bind.
  destruct (match f x with
            | call_set layer channels => Mask_set layer channels
            | call_load dmask_file => Mask_load dmask_file
            end m) as [[[]|e] m']; [apply IH | reflexivity].
Qed.

End GenDmaskProperties.

(** On the recording mask a replay appends the calls. *)
Lemma replay_recording (calls log : list mask_call) :
  replay calls log = (Returned tt, log ++ calls).
Proof.
  unfold replay. revert log.
  induction calls as [|c calls IH]; intros log.
  - cbn. now rewrite app_nil_r.
  - cbn [for_each]. unfold bind.
    destruct c; cbn [Mask_set Mask_load RecordingMask]; rewrite IH, <- app_assoc;
      reflexivity.
Qed.

Lemma for_each_ext {S A B} (xs : list A) (f g : B -> A -> Eff S B) :
  (forall acc x s, f acc x s = g acc x s) ->
  forall acc s, for_each xs f acc s = for_each xs g acc s.
Proof.
  intros Hext. induction xs as [|x xs IH]; intros acc s; [reflexivity|].
  cbn [for_each]. unfold bind. rewrite Hext.
  destruct (g acc x s) as [[acc'|e] s']; [apply IH | reflexivity].
Qed.

Lemma nth_error_combine {A B} (l : list A) (l' : list B) i a b :
  nth_error l i = Some a -> nth_error l' i = Some b ->
  nth_error (combine l l') i = Some (a, b).
Proof.
  revert l' i. induction l as [|x l IH]; intros l' i Ha Hb.
  - destruct i; discriminate.
  - destruct l' as [|y l']; [destruct i; discriminate|].
    destruct i as [|i]; cbn in *; [congruence | now apply IH].
Qed.

Lemma length_paired_calls layers channels :
  length channels = length layers ->
  length (paired_calls layers channels) = length layers.
Proof.
  intros Heq. unfold paired_calls.
  rewrite length_map, length_combine. lia.
Qed.

Lemma nth_error_paired_calls layers channels i layer chn :
  nth_error layers i = Some layer -> nth_error channels i = Some chn ->
  nth_error (paired_calls layers channels) i
  = Some (call_set layer (Some [chn])).
Proof.
  intros Hl Hc. unfold paired_calls.
  rewrite nth_error_map, (nth_error_combine _ _ _ Hl Hc). reflexivity.
Qed.

Section Replay.

Context {M : Type} `{MaskLike M}.

Lemma returning_replay_one (c : mask_call) (m : M) :
  returning (replay [c] m)
  = returning (match c with
               | call_set layer channels => Mask_set layer channels
               | call_load dmask_file => Mask_load dmask_file
               end m).
Proof.
  unfold replay. cbn [for_each]. unfold bind.
  destruct (match c with
            | call_set layer channels => Mask_set layer channels
            | call_load dmask_file => Mask_load dmask_file
            end m) as [[[]|e] m']; reflexivity.
Qed.

Lemma gen_dmask_paired_replay layers channels (m : M) :
  (1 < length layers)%nat -> length channels = length layers ->
  gen_dmask (Some layers) (Some channels) None m
  = returning (replay (paired_calls layers channels) m).
Proof.
  intros Hlen Heq. rewrite gen_dmask_paired by assumption.
  unfold paired_calls. rewrite <- for_each_replay. f_equal.
  apply for_each_ext. intros [] [layer chn] s. reflexivity.
Qed.

Lemma gen_dmask_all_channels_replay layers (m : M) :
  (1 < length layers)%nat ->
  gen_dmask (Some layers) None None m
  = returning (replay (map (fun layer => call_set layer None) layers) m).
Proof.
  intros Hlen. rewrite gen_dmask_all_channels by assumption.
  now rewrite <- for_each_replay.
Qed.

End Replay.

(** C6: a call that gives both [layers] and [dmask_file], or neither, fails
    on the first assertion, an [InvalidArgument], and leaves the mask as it
    was; a call that gives only [dmask_file] does what [load] does on the
    mask and returns it, and the one call made on the mask is that [load]. *)
Theorem mask_xor_validation :
  (forall (M : Type) (ML : MaskLike M) (m : M),
      (forall layers channels dmask_file,
          gen_dmask (Some layers) channels (Some dmask_file) m
          = (Raised (AssertionError xor_msg), m))
      /\ (forall channels,
            gen_dmask None channels None m
            = (Raised (AssertionError xor_msg), m))
      /\ (forall dmask_file,
            gen_dmask None None (Some dmask_file) m
            = returning (Mask_load dmask_file m)))
  /\ InvalidArgument (AssertionError xor_msg)
  /\ (forall dmask_file,
        gen_dmask None None (Some dmask_file) (Mask (M:=list mask_call))
        = (Returned [call_load dmask_file], [call_load dmask_file])).
Proof.
  split; [|split; [exact I|]].
  - intros M ML m. split; [|split].
    + intros. apply gen_dmask_both.
    + intros. apply gen_dmask_neither.
    + intros. apply gen_dmask_file.
  - intros dmask_file. rewrite gen_dmask_file. reflexivity.
Qed.

(** C7: with more than one layer and as many channels as layers, the calls
    made on the mask are [set(layer, [chn])] for the pairs of layers and
    channels, position by position and in order; any mask ends as these
    calls leave it. *)
Theorem paired_channels (layers : list string) (channels : list Z) :
  (1 < length layers)%nat -> length channels = length layers ->
  gen_dmask (Some layers) (Some channels) None (Mask (M:=list mask_call))
  = (Returned (paired_calls layers channels), paired_calls layers channels)
  /\ length (paired_calls layers channels) = length layers
  /\ (forall i layer chn,
        nth_error layers i = Some layer -> nth_error channels i = Some chn ->
        nth_error (paired_calls layers channels) i
        = Some (call_set layer (Some [chn])))
  /\ (forall (M : Type) (ML : MaskLike M) (m : M),
        gen_dmask (Some layers) (Some channels) None m
        = returning (replay (paired_calls layers channels) m)).
Proof.
  intros Hlen Heq. split; [|split; [|split]].
  - rewrite gen_dmask_paired_replay, replay_recording by assumption.
    reflexivity.
  - now apply length_paired_calls.
  - intros i layer chn. apply nth_error_paired_calls.
  - intros M ML m. now apply gen_dmask_paired_replay.
Qed.

(** C8: channels given without layers, an empty list of layers, and more
    than one layer with a list of channels of another length each make the
    call fail with an [InvalidArgument], and the mask is as it was before the
    call: no selection has been applied to it. *)
Theorem precondition_failures (M : Type) (ML : MaskLike M) (m : M) :
  (forall channels dmask_file,
      exists e, gen_dmask None (Some channels) dmask_file m = (Raised e, m)
                /\ InvalidArgument e)
  /\ (forall channels dmask_file,
        exists e, gen_dmask (Some []) channels dmask_file m = (Raised e, m)
                  /\ InvalidArgument e)
  /\ (forall layers channels dmask_file,
        (1 < length layers)%nat -> length channels <> length layers ->
        exists e,
          gen_dmask (Some layers) (Some channels) dmask_file m = (Raised e, m)
          /\ InvalidArgument e).
Proof.
  split; [|split].
  - intros channels dmask_file. eexists. split.
    + apply gen_dmask_channels_without_layers.
    + exact I.
  - intros channels dmask_file. eexists. split.
    + apply gen_dmask_empty.
    + destruct dmask_file; exact I.
  - intros layers channels dmask_file Hlen Hneq. eexists. split.
    + now apply gen_dmask_mismatch.
    + destruct dmask_file; exact I.
Qed.

(** What the recording mask records is what [gen_dmask] does to any mask:
    a run that records [calls] leaves every mask as the replay of [calls]
    leaves it, and a run that fails on the recording mask fails in the same
    way on every mask, which it leaves untouched. *)
Theorem gen_dmask_replays (layers : option (list string))
    (channels : option (list Z)) (dmask_file : option string) :
  match gen_dmask layers channels dmask_file (Mask (M:=list mask_call)) with
  | (Returned calls, _) =>
      forall (M : Type) (ML : MaskLike M) (m : M),
        gen_dmask layers channels dmask_file m = returning (replay calls m)
  | (Raised e, _) =>
      forall (M : Type) (ML : MaskLike M) (m : M),
        gen_dmask layers channels dmask_file m = (Raised e, m)
  end.
Proof.
  destruct layers as [layers|], dmask_file as [file|].
  - rewrite gen_dmask_both. intros. apply gen_dmask_both.
  - destruct layers as [|l1 [|l2 ls]].
    + rewrite gen_dmask_empty. intros. apply gen_dmask_empty.
    + rewrite gen_dmask_single. cbn [Mask_set RecordingMask returning Mask app].
      intros. now rewrite gen_dmask_single, returning_replay_one.
    + assert (Hlen : (1 < length (l1 :: l2 :: ls))%nat) by (cbn; lia).
      destruct channels as [channels|].
      * destruct (Nat.eq_dec (length channels) (length (l1 :: l2 :: ls)))
          as [Heq|Hneq].
        -- rewrite gen_dmask_paired_replay, replay_recording by assumption.
           cbn [returning Mask RecordingMask app].
           intros. now apply gen_dmask_paired_replay.
        -- rewrite gen_dmask_mismatch by assumption.
           intros. now apply gen_dmask_mismatch.
      * rewrite gen_dmask_all_channels_replay, replay_recording by assumption.
        cbn [returning Mask RecordingMask app].
        intros. now apply gen_dmask_all_channels_replay.
  - destruct channels as [channels|].
    + rewrite gen_dmask_channels_without_layers.
      intros. apply gen_dmask_channels_without_layers.
    + rewrite gen_dmask_file. cbn [Mask_load RecordingMask returning Mask app].
      intros. now rewrite gen_dmask_file, returning_replay_one.
  - rewrite gen_dmask_neither. intros. apply gen_dmask_neither.
Qed.

(** ** Exact arithmetic and the specification's wording of the adjustment *)

Lemma adjusted_boundary_exact (d base b a : Q) (n : nat) :
  (d == base)%Q ->
  spec_boundary_adjustment base b a (adjusted d b a n).
Proof.
  intros Hd. destruct n as [|[|m]]; cbn [adjusted spec_boundary_adjustment].
  - exact I.
  - cbn [feqb fsub fadd exactQ]. apply Qeq_bool_iff. rewrite Hd. ring.
  - destruct (repeat d m ++ [fadd d a]) as [|x l] eqn:Hrest.
    { destruct (repeat d m); discriminate. }
    rewrite <- Hrest.
    rewrite last_last, removelast_last.
    cbn [feqb fsub fadd exactQ]. repeat split.
    + apply Qeq_bool_iff. rewrite Hd. ring.
    + apply Qeq_bool_iff. rewrite Hd. ring.
    + apply Forall_forall. intros y Hy. apply repeat_spec in Hy. subst y.
      now apply Qeq_bool_iff.
Qed.

(** In exact arithmetic the specification's wording holds: the durations of
    a returned schedule satisfy the boundary adjustment for
    [base = interval / fps], with [before_vid] and [after_vid] as
    numbers. *)
Theorem boundary_adjustment_exact (cv2 : string -> VideoCapture (F:=Q))
    vid_file original_onset interval before_vid after_vid calls
    frame_nums onsets durations calls' :
  get_frame_time_info cv2 vid_file original_onset interval before_vid
    after_vid calls
  = (Returned (frame_nums, onsets, durations), calls') ->
  exists iv base b a,
    as_int interval = Some iv
    /\ spec_base_duration (frame_rate (cv2 vid_file)) iv = Some base
    /\ float_of before_vid = Returned b
    /\ float_of after_vid = Returned a
    /\ spec_boundary_adjustment base b a durations.
Proof.
  intros Hrun.
  destruct (returned_inv _ _ _ _ _ _ _ Hrun)
    as (iv & d & b & a & Hiv & _ & Hfps & Hd & _ & _ & Hb & Ha & Hdu & _).
  exists iv, (inject_Z iv / frame_rate (cv2 vid_file))%Q, b, a.
  split; [assumption|]. split; [reflexivity|].
  split; [assumption|]. split; [assumption|].
  rewrite Hdu. apply adjusted_boundary_exact.
  apply base_duration_exact; [|assumption].
  now apply Qeq_bool_neq.
Qed.

(** ** The claims on concrete calls *)

Local Open Scope float_scope.

(** The two example calls, evaluated. *)
Lemma dyadic_run :
  get_frame_time_info dyadic_video "v" (VFloat (-2)) (VInt 2) (VFloat 0.5)
    (VInt 1) []
  = (Returned (dyadic_frame_nums, dyadic_onsets, dyadic_durations),
     cv2_calls "v").
Proof. vm_compute. reflexivity. Qed.

Lemma exact_run :
  get_frame_time_info exact_video "v" (VFloat (-2)%Q) (VInt 3)
    (VFloat 0.5%Q) (VInt 1) []
  = (Returned (exact_frame_nums, exact_onsets, exact_durations),
     cv2_calls "v").
Proof. vm_compute. reflexivity. Qed.

(** C1 on [dyadic_video]: the onsets -2, -1, -0.5, 0 are the running sums
    of the durations 1, 0.5, 0.5 from -2. *)
Lemma onsets_cumulative_witness :
  get_frame_time_info dyadic_video "v" (VFloat (-2)) (VInt 2) (VFloat 0.5)
    (VInt 1) []
  = (Returned (dyadic_frame_nums, dyadic_onsets, dyadic_durations),
     cv2_calls "v")
  /\ nth_error dyadic_onsets 0 = Some (VFloat (-2))
  /\ (exists x x' d, nth_error dyadic_onsets 1 = Some x
                     /\ float_of x = Returned x'
                     /\ nth_error dyadic_durations 1 = Some d
                     /\ nth_error dyadic_onsets 2 = Some (VFloat (fadd x' d)))
  /\ nth_error dyadic_onsets 3
     = Some (VFloat (fold_left fadd (firstn 3 dyadic_durations) (-2))).
Proof.
  split; [exact dyadic_run|].
  destruct (onsets_cumulative dyadic_video "v" (VFloat (-2)) (VInt 2)
              (VFloat 0.5) (VInt 1) [] dyadic_run)
    as (Hfirst & Hstep & _ & Hsum).
  split; [exact Hfirst|]. split.
  - apply (Hstep 1%nat). cbn. lia.
  - apply (Hsum (-2) eq_refl 3%nat). cbn. lia.
Defined.

(** C2 as stated fails in [binary64] on the specification's own example
    (frame rate 25, 100 frames, interval 5, [before_vid = 0.5]): the first
    duration is 0.2 + 0.5, and subtracting 5 / 25 from it leaves a number
    strictly below 0.5.  And the uniform value is [1 / fps * interval], not
    [interval / fps]: at frame rate 49 and interval 49 the duration in the
    middle is below 49 / 49. *)
Lemma boundary_adjustment_counterexample :
  (exists frame_nums onsets durations d0,
     get_frame_time_info spec_video "v" (VFloat (-2)) (VInt 5) (VFloat 0.5)
       (VFloat 1) []
     = (Returned (frame_nums, onsets, durations), cv2_calls "v")
     /\ spec_base_duration 25 5 = Some (5 / 25)
     /\ nth_error durations 0 = Some d0
     /\ feqb (d0 - 5 / 25) 0.5 = false
     /\ fltb (d0 - 5 / 25) 0.5 = true
     /\ ~ spec_boundary_adjustment (5 / 25) 0.5 1 durations)
  /\ (exists frame_nums onsets durations d1,
        get_frame_time_info slow_video "v" (VInt 0) (VInt 49) (VInt 0)
          (VInt 0) []
        = (Returned (frame_nums, onsets, durations), cv2_calls "v")
        /\ length durations = 3%nat
        /\ spec_base_duration 49 49 = Some (49 / 49)
        /\ nth_error durations 1 = Some d1
        /\ feqb d1 (49 / 49) = false
        /\ fltb d1 (49 / 49) = true).
Proof.
  split.
  - eexists _, _, _, _. split; [vm_compute; reflexivity|].
    split; [vm_compute; reflexivity|].
    split; [vm_compute; reflexivity|].
    split; [vm_compute; reflexivity|].
    split; [vm_compute; reflexivity|].
    intros [Hfirst _]. vm_compute in Hfirst. discriminate.
  - eexists _, _, _, _. split; [vm_compute; reflexivity|].
    repeat split; vm_compute; reflexivity.
Qed.

(** C2, as amended, on [dyadic_video]: base 0.5, first 0.5 + 0.5, last
    0.5 + 1. *)
Lemma durations_adjusted_witness :
  get_frame_time_info dyadic_video "v" (VFloat (-2)) (VInt 2) (VFloat 0.5)
    (VInt 1) []
  = (Returned (dyadic_frame_nums, dyadic_onsets, dyadic_durations),
     cv2_calls "v")
  /\ exists iv base b a,
       as_int (F:=float) (VInt 2) = Some iv
       /\ base_duration (frame_rate (dyadic_video "v")) iv = Some base
       /\ float_of (VFloat 0.5) = Returned b
       /\ float_of (F:=float) (VInt 1) = Returned a
       /\ (length dyadic_durations = 1%nat ->
           dyadic_durations = [fadd (fadd base b) a])
       /\ ((2 <= length dyadic_durations)%nat ->
           nth_error dyadic_durations 0 = Some (fadd base b)
           /\ nth_error dyadic_durations (length dyadic_durations - 1)
              = Some (fadd base a))
       /\ (forall i, (0 < i < length dyadic_durations - 1)%nat ->
             nth_error dyadic_durations i = Some base).
Proof.
  split; [exact dyadic_run|].
  exact (durations_adjusted dyadic_video "v" (VFloat (-2)) (VInt 2)
           (VFloat 0.5) (VInt 1) [] dyadic_run).
Defined.



(** C4 as stated fails: the call returns no lists for a video that reports
    a frame rate of 0, for a video without frames, for an interval too large
    for a [float], and for a [before_vid] or an [original_onset] that is an
    integer too large for a [float]. *)
Lemma schedule_lengths_counterexample :
  get_frame_time_info unopened_video "v" (VInt 0) (VInt 1) (VInt 0) (VInt 0)
    []
  = (Raised ZeroDivisionError, cv2_calls "v")
  /\ get_frame_time_info empty_video "v" (VInt 0) (VInt 1) (VInt 0) (VInt 0)
       []
     = (Raised IndexError, cv2_calls "v")
  /\ get_frame_time_info dyadic_video "v" (VInt 0) (VInt (2 ^ 1024)) (VInt 0)
       (VInt 0) []
     = (Raised OverflowError, cv2_calls "v")
  /\ get_frame_time_info dyadic_video "v" (VInt 0) (VInt 1) (VInt (2 ^ 1024))
       (VInt 0) []
     = (Raised OverflowError, cv2_calls "v")
  /\ get_frame_time_info dyadic_video "v" (VInt (2 ^ 1024)) (VInt 1) (VInt 0)
       (VInt 0) []
     = (Raised OverflowError, cv2_calls "v").
Proof. repeat split; vm_compute; reflexivity. Qed.

(** C4, as amended, on [dyadic_video]. *)
Lemma schedule_lengths_witness :
  as_int (F:=float) (VInt 2) = Some 2%Z /\ (0 < 2)%Z
  /\ of_int (F:=float) 2 <> None
  /\ feqb (frame_rate (dyadic_video "v")) fzero = false
  /\ (1 <= frame_count (dyadic_video "v"))%Z
  /\ float_of (VFloat 0.5) = Returned 0.5
  /\ float_of (F:=float) (VInt 1) = Returned 1
  /\ (exists frame_nums onsets durations calls',
        get_frame_time_info dyadic_video "v" (VFloat (-2)) (VInt 2)
          (VFloat 0.5) (VInt 1) []
        = (Returned (frame_nums, onsets, durations), calls')
        /\ length frame_nums = length onsets
        /\ length onsets = length durations)
  /\ length dyadic_frame_nums = length dyadic_onsets
  /\ length dyadic_onsets = length dyadic_durations.
Proof.
  assert (Hiv : as_int (F:=float) (VInt 2) = Some 2%Z) by reflexivity.
  assert (Hpos : (0 < 2)%Z) by lia.
  assert (Hconv : of_int (F:=float) 2 <> None) by (vm_compute; discriminate).
  assert (Hfps : feqb (frame_rate (dyadic_video "v")) fzero = false)
    by (vm_compute; reflexivity).
  assert (Hn : (1 <= frame_count (dyadic_video "v"))%Z) by (cbn; lia).
  assert (Hb : float_of (VFloat 0.5) = Returned 0.5) by reflexivity.
  assert (Ha : float_of (F:=float) (VInt 1) = Returned 1)
    by (vm_compute; reflexivity).
  repeat (split; [assumption|]).
  destruct (schedule_lengths dyadic_video "v" (VFloat (-2)) (VInt 2)
              (VFloat 0.5) (VInt 1) [])
    as [Hequal Hreturns].
  split.
  - exact (Hreturns 2%Z _ _ Hiv Hpos Hconv Hfps Hn Hb Ha
             (or_intror (ex_intro _ (-2) eq_refl))).
  - exact (Hequal _ _ _ _ dyadic_run).
Defined.

(** C5 on the intervals 0, -1 and 2.5, which fail before any call on [cv2],
    and on the interval 5, which passes. *)
Lemma interval_validation_witness :
  ~ positive_integer (F:=float) (VInt 0)
  /\ ~ positive_integer (F:=float) (VInt (-1))
  /\ ~ positive_integer (VFloat 2.5)
  /\ positive_integer (F:=float) (VInt 5)
  /\ get_frame_time_info dyadic_video "v" (VFloat (-2)) (VInt 0) (VFloat 0.5)
       (VInt 1) []
     = (Raised (AssertionError interval_msg), [])
  /\ get_frame_time_info dyadic_video "v" (VFloat (-2)) (VInt (-1))
       (VFloat 0.5) (VInt 1) []
     = (Raised (AssertionError interval_msg), [])
  /\ get_frame_time_info dyadic_video "v" (VFloat (-2)) (VFloat 2.5)
       (VFloat 0.5) (VInt 1) []
     = (Raised (AssertionError interval_msg), [])
  /\ snd (get_frame_time_info dyadic_video "v" (VFloat (-2)) (VInt 5)
            (VFloat 0.5) (VInt 1) [])
     = [] ++ cv2_calls "v".
Proof.
  assert (H0 : ~ positive_integer (F:=float) (VInt 0)).
  { intros (n & Hn & Hpos). cbn in Hn. injection Hn as <-. lia. }
  assert (H1 : ~ positive_integer (F:=float) (VInt (-1))).
  { intros (n & Hn & Hpos). cbn in Hn. injection Hn as <-. lia. }
  assert (H2 : ~ positive_integer (VFloat 2.5)).
  { intros (n & Hn & Hpos). discriminate. }
  assert (H5 : positive_integer (F:=float) (VInt 5)).
  { exists 5%Z. split; [reflexivity | lia]. }
  repeat (split; [assumption|]).
  split; [|split; [|split]].
  - exact (proj1 (proj1 (interval_validation dyadic_video "v" (VFloat (-2))
                           (VInt 0) (VFloat 0.5) (VInt 1) []) H0)).
  - exact (proj1 (proj1 (interval_validation dyadic_video "v" (VFloat (-2))
                           (VInt (-1)) (VFloat 0.5) (VInt 1) []) H1)).
  - exact (proj1 (proj1 (interval_validation dyadic_video "v" (VFloat (-2))
                           (VFloat 2.5) (VFloat 0.5) (VInt 1) []) H2)).
  - exact (proj1 (proj2 (proj2 (interval_validation dyadic_video "v"
                                  (VFloat (-2)) (VInt 5) (VFloat 0.5)
                                  (VInt 1) []) H5))).
Defined.

(** C9 on [dyadic_video]: 7 frames sampled every 2 give 1, 3, 5, 7. *)
Lemma frame_nums_range_witness :
  get_frame_time_info dyadic_video "v" (VFloat (-2)) (VInt 2) (VFloat 0.5)
    (VInt 1) []
  = (Returned (dyadic_frame_nums, dyadic_onsets, dyadic_durations),
     cv2_calls "v")
  /\ exists iv,
       as_int (F:=float) (VInt 2) = Some iv
       /\ dyadic_frame_nums
          = map (fun k => (1 + Z.of_nat k * iv)%Z)
              (seq 0 (length dyadic_frame_nums))
       /\ (forall x, In x dyadic_frame_nums <->
                     (1 <= x <= frame_count (dyadic_video "v"))%Z
                     /\ ((x - 1) mod iv = 0)%Z)
       /\ Z.of_nat (length dyadic_frame_nums)
          = ceil_div (frame_count (dyadic_video "v")) iv
       /\ ((Z.of_nat (length dyadic_frame_nums) - 1) * iv
           < frame_count (dyadic_video "v")
           <= Z.of_nat (length dyadic_frame_nums) * iv)%Z.
Proof.
  split; [exact dyadic_run|].
  exact (frame_nums_range dyadic_video "v" (VFloat (-2)) (VInt 2)
           (VFloat 0.5) (VInt 1) [] dyadic_run).
Defined.

(** C10 as stated fails: with no frame and a frame rate of 0 the call fails
    on the division, not on the indexing; and with no frame and an interval
    too large for a [float] it fails on the conversion. *)
Lemma frame_time_info_totality_counterexample :
  (frame_count (unopened_video "v") < 1)%Z
  /\ get_frame_time_info unopened_video "v" (VInt 0) (VInt 1) (VInt 0)
       (VInt 0) []
     = (Raised ZeroDivisionError, cv2_calls "v")
  /\ fst (get_frame_time_info unopened_video "v" (VInt 0) (VInt 1) (VInt 0)
            (VInt 0) [])
     <> Raised IndexError
  /\ (frame_count (empty_video "v") < 1)%Z
  /\ get_frame_time_info empty_video "v" (VInt 0) (VInt (2 ^ 1024)) (VInt 0)
       (VInt 0) []
     = (Raised OverflowError, cv2_calls "v").
Proof.
  split; [cbn; lia|]. split; [vm_compute; reflexivity|].
  split; [vm_compute; discriminate|]. split; [cbn; lia|].
  vm_compute. reflexivity.
Qed.

(** C10, as amended, on [unopened_video], [empty_video] and [dyadic_video]. *)
Lemma frame_time_info_totality_witness :
  as_int (F:=float) (VInt 1) = Some 1%Z /\ (0 < 1)%Z
  /\ get_frame_time_info unopened_video "v" (VInt 0) (VInt 1) (VInt 0)
       (VInt 0) []
     = (Raised ZeroDivisionError, [] ++ cv2_calls "v")
  /\ get_frame_time_info empty_video "v" (VInt 0) (VInt 1) (VInt 0) (VInt 0)
       []
     = (Raised IndexError, [] ++ cv2_calls "v")
  /\ (exists schedule,
        fst (get_frame_time_info dyadic_video "v" (VInt 0) (VInt 1) (VInt 0)
               (VInt 0) [])
        = Returned schedule).
Proof.
  assert (Hiv : as_int (F:=float) (VInt 1) = Some 1%Z) by reflexivity.
  assert (Hpos : (0 < 1)%Z) by lia.
  assert (Hconv : of_int (F:=float) 1 <> None) by (vm_compute; discriminate).
  assert (H0 : float_of (F:=float) (VInt 0) = Returned 0)
    by (vm_compute; reflexivity).
  repeat (split; [assumption|]).
  split; [|split].
  - apply (frame_time_info_totality unopened_video "v" (VInt 0) (VInt 1)
             (VInt 0) (VInt 0) [] Hiv Hpos).
    vm_compute. reflexivity.
  - apply (frame_time_info_totality empty_video "v" (VInt 0) (VInt 1)
             (VInt 0) (VInt 0) [] Hiv Hpos);
      [vm_compute; reflexivity | exact Hconv | cbn; lia].
  - apply (frame_time_info_totality dyadic_video "v" (VInt 0) (VInt 1)
             (VInt 0) (VInt 0) [] Hiv Hpos);
      [vm_compute; reflexivity | cbn; lia | exact Hconv
      | exists 0; exact H0 | exists 0; exact H0
      | right; exists 0; exact H0].
Defined.

(** C7 on the specification's example: [conv1] with [[3]], [conv2] with
    [[5]]. *)
Lemma paired_channels_witness :
  (1 < length ["conv1"; "conv2"])%nat
  /\ length [3; 5]%Z = length ["conv1"; "conv2"]
  /\ gen_dmask (Some ["conv1"; "conv2"]) (Some [3; 5]%Z) None
       (Mask (M:=list mask_call))
     = (Returned [call_set "conv1" (Some [3%Z]); call_set "conv2" (Some [5%Z])],
        [call_set "conv1" (Some [3%Z]); call_set "conv2" (Some [5%Z])]).
Proof.
  assert (Hlen : (1 < length ["conv1"; "conv2"])%nat) by (cbn; lia).
  assert (Heq : length [3; 5]%Z = length ["conv1"; "conv2"]) by reflexivity.
  repeat (split; [assumption|]).
  exact (proj1 (paired_channels ["conv1"; "conv2"] [3; 5]%Z Hlen Heq)).
Defined.

(** C8 on the recording mask: after each failing call no call has been
    recorded. *)
Lemma precondition_failures_witness :
  (1 < length ["a"; "b"; "c"])%nat
  /\ length [1; 2]%Z <> length ["a"; "b"; "c"]
  /\ (exists e,
        gen_dmask (Some ["a"; "b"; "c"]) (Some [1; 2]%Z) None
          (Mask (M:=list mask_call))
        = (Raised e, []) /\ InvalidArgument e)
  /\ (exists e,
        gen_dmask (Some []) None None (Mask (M:=list mask_call))
        = (Raised e, []) /\ InvalidArgument e)
  /\ (exists e,
        gen_dmask None (Some [1]%Z) (Some "m.dmask.csv")
          (Mask (M:=list mask_call))
        = (Raised e, []) /\ InvalidArgument e).
Proof.
  assert (Hlen : (1 < length ["a"; "b"; "c"])%nat) by (cbn; lia).
  assert (Hneq : length [1; 2]%Z <> length ["a"; "b"; "c"])
    by (cbn; lia).
  repeat (split; [assumption|]).
  destruct (precondition_failures RecordingMask (Mask (M:=list mask_call)))
    as (Hchn & Hempty & Hmis).
  split; [|split].
  - exact (Hmis ["a"; "b"; "c"] [1; 2]%Z None Hlen Hneq).
  - exact (Hempty None None).
  - exact (Hchn [1]%Z (Some "m.dmask.csv")).
Defined.

(** The specification's wording of the adjustment on [exact_video]. *)
Lemma boundary_adjustment_exact_witness :
  get_frame_time_info exact_video "v" (VFloat (-2)%Q) (VInt 3)
    (VFloat 0.5%Q) (VInt 1) []
  = (Returned (exact_frame_nums, exact_onsets, exact_durations),
     cv2_calls "v")
  /\ exists iv base b a,
       as_int (F:=Q) (VInt 3) = Some iv
       /\ spec_base_duration (frame_rate (exact_video "v")) iv = Some base
       /\ float_of (VFloat 0.5%Q) = Returned b
       /\ float_of (F:=Q) (VInt 1) = Returned a
       /\ spec_boundary_adjustment base b a exact_durations.
Proof.
  split; [exact exact_run|].
  exact (boundary_adjustment_exact exact_video "v" (VFloat (-2)%Q) (VInt 3)
           (VFloat 0.5%Q) (VInt 1) [] exact_run).
Defined.
(** ** A single layer, and several layers without channels *)

(** With one layer the one call made on the mask is
    [set(layer, channels)], with the channels as given. *)
Theorem single_layer_mask (layer : string) (channels : option (list Z)) :
  gen_dmask (Some [layer]) channels None (Mask (M:=list mask_call))
  = (Returned [call_set layer channels], [call_set layer channels])
  /\ (forall (M : Type) (ML : MaskLike M) (m : M),
        gen_dmask (Some [layer]) channels None m
        = returning (Mask_set layer channels m)).
Proof.
  split.
  - rewrite gen_dmask_single. reflexivity.
  - intros M ML m. apply gen_dmask_single.
Qed.

(** With several layers and no channels the calls made on the mask are
    [set(layer)] for each layer, in order. *)
Theorem all_channels_mask (layers : list string) :
  (1 < length layers)%nat ->
  gen_dmask (Some layers) None None (Mask (M:=list mask_call))
  = (Returned (map (fun layer => call_set layer None) layers),
     map (fun layer => call_set layer None) layers)
  /\ (forall (M : Type) (ML : MaskLike M) (m : M),
        gen_dmask (Some layers) None None m
        = returning
            (replay (map (fun layer => call_set layer None) layers) m)).
Proof.
  intros Hlen. split.
  - rewrite gen_dmask_all_channels_replay, replay_recording by assumption.
    reflexivity.
  - intros M ML m. now apply gen_dmask_all_channels_replay.
Qed.

(** Two layers without channels: both are selected with all channels. *)
Lemma all_channels_mask_witness :
  (1 < length ["conv1"; "conv2"])%nat
  /\ gen_dmask (Some ["conv1"; "conv2"]) None None (Mask (M:=list mask_call))
     = (Returned [call_set "conv1" None; call_set "conv2" None],
        [call_set "conv1" None; call_set "conv2" None]).
Proof.
  assert (Hlen : (1 < length ["conv1"; "conv2"])%nat) by (cbn; lia).
  split; [exact Hlen|].
  exact (proj1 (all_channels_mask ["conv1"; "conv2"] Hlen)).
Defined.

(** ** Further properties of [get_frame_time_info] *)

Local Close Scope float_scope.

Section SamplingProperties.

Context {F : Type} `{PyFloat F}.
Variable cv2 : string -> VideoCapture (F:=F).

Lemma returned_frame_nums_In vid_file o interval b a calls fn on du calls' :
  get_frame_time_info cv2 vid_file o interval b a calls
  = (Returned (fn, on, du), calls') ->
  exists iv,
    as_int interval = Some iv /\ 0 < iv
    /\ forall x, In x fn <->
                 1 <= x <= frame_count (cv2 vid_file) /\ (x - 1) mod iv = 0.
Proof.
  intros Hrun.
  destruct (returned_frame_nums _ _ _ _ _ _ _ Hrun)
    as (iv & Hiv & Hpos & Hmap & Hlen).
  pose proof (ceil_div_spec (frame_count (cv2 vid_file)) Hpos) as [Hlo Hhi].
  rewrite <- Hlen in Hlo, Hhi.
  exists iv. split; [assumption|]. split; [assumption|].
  intros x. rewrite Hmap, in_map_iff. split.
  - intros (k & <- & Hk). apply in_seq in Hk. split; [nia|].
    replace (1 + Z.of_nat k * iv - 1) with (Z.of_nat k * iv) by lia.
    apply Z.mod_mul. lia.
  - intros [Hx Hmod].
    apply Z.mod_divide in Hmod; [|lia]. destruct Hmod as [q Hq].
    exists (Z.to_nat q). assert (0 <= q) by nia.
    split; [lia|]. apply in_seq. nia.
Qed.

(** Every frame of the video is at most [interval - 1] frames after a sampled
    one: the sampled frames leave no gap of [interval] frames or more, also
    not at the end of the video. *)
Theorem sampling_covers vid_file original_onset interval before_vid
    after_vid calls frame_nums onsets durations calls' :
  get_frame_time_info cv2 vid_file original_onset interval before_vid
    after_vid calls
  = (Returned (frame_nums, onsets, durations), calls') ->
  exists iv,
    as_int interval = Some iv
    /\ forall f, 1 <= f <= frame_count (cv2 vid_file) ->
                 exists x, In x frame_nums /\ x <= f < x + iv.
Proof.
  intros Hrun.
  destruct (returned_frame_nums_In _ _ _ _ _ _ Hrun)
    as (iv & Hiv & Hpos & Hin).
  exists iv. split; [assumption|]. intros f Hf.
  pose proof (Z.mod_pos_bound (f - 1) iv Hpos) as Hr.
  pose proof (Z.div_mod (f - 1) iv ltac:(lia)) as Hdm.
  assert (0 <= (f - 1) / iv) by (apply Z.div_pos; lia).
  exists (1 + iv * ((f - 1) / iv)). split; [|lia].
  apply Hin. split; [nia|].
  replace (1 + iv * ((f - 1) / iv) - 1) with (((f - 1) / iv) * iv) by lia.
  apply Z.mod_mul. lia.
Qed.

(** An interval that reaches past the last frame samples the first frame
    only: the schedule is the single frame 1, shown from [original_onset],
    which is returned as it was given, whatever it is, for
    [(base + before_vid) + after_vid], the two offsets as floats. *)
Theorem single_frame_schedule vid_file original_onset interval before_vid
    after_vid calls iv base b a :
  as_int interval = Some iv ->
  1 <= frame_count (cv2 vid_file) <= iv ->
  feqb (frame_rate (cv2 vid_file)) fzero = false ->
  base_duration (frame_rate (cv2 vid_file)) iv = Some base ->
  float_of before_vid = Returned b ->
  float_of after_vid = Returned a ->
  get_frame_time_info cv2 vid_file original_onset interval before_vid
    after_vid calls
  = (Returned ([1], [original_onset], [fadd (fadd base b) a]),
     calls ++ cv2_calls vid_file).
Proof.
  intros Hiv Hn Hfps Hbase Hb Ha.
  rewrite get_frame_time_info_run, Hiv.
  destruct (Z.ltb_spec 0 iv); [|lia]. cbv zeta. rewrite Hfps, Hbase.
  rewrite py_range_single by lia.
  unfold adjusted_schedule. rewrite Hb, Ha. reflexivity.
Qed.

(** The frame numbers depend on the frame count and the interval only, and
    the durations do not depend on [original_onset]: when a call returns,
    the call with another [original_onset] returns the same frame numbers
    and the same durations, provided the new [original_onset] converts to a
    [float] or only one frame is sampled. *)
Theorem onset_only_moves_onsets vid_file o o' interval before_vid after_vid
    calls fn on du calls' :
  get_frame_time_info cv2 vid_file o interval before_vid after_vid calls
  = (Returned (fn, on, du), calls') ->
  (length fn = 1%nat \/ exists x, float_of o' = Returned x) ->
  exists on',
    get_frame_time_info cv2 vid_file o' interval before_vid after_vid calls
    = (Returned (fn, on', du), calls')
    /\ length on' = length on.
Proof.
  intros Hrun Ho'.
  destruct (returned_inv _ _ _ _ _ _ _ Hrun)
    as (iv & d & b & a & Hiv & Hpos & Hfps & Hd & Hfn & Hlen & Hb & Ha & Hdu
        & Hon & Hcalls).
  destruct (onsets_of_returns o' (ds := removelast du)) as [on' Hon'].
  { destruct Ho' as [H1|Ho']; [left | now right].
    rewrite Hdu, H1. reflexivity. }
  exists on'. split.
  - subst fn du calls'. eapply returns_closed_form; eassumption.
  - apply onsets_of_length in Hon, Hon'. congruence.
Qed.

End SamplingProperties.

(** ** Further properties in exact arithmetic *)

Section ExactTotals.

Variable cv2 : string -> VideoCapture (F:=Q).

Local Open Scope Q_scope.

Lemma Qsum_app (l l' : list Q) : Qsum (l ++ l') == Qsum l + Qsum l'.
Proof.
  induction l as [|x l IH]; cbn [app Qsum fold_right].
  - now rewrite Qplus_0_l.
  - fold (Qsum (l ++ l')). fold (Qsum l). rewrite IH. ring.
Qed.

Lemma Qsum_repeat (d : Q) (m : nat) :
  Qsum (repeat d m) == inject_Z (Z.of_nat m) * d.
Proof.
  induction m as [|m IH].
  - cbn. ring.
  - cbn [repeat Qsum fold_right]. fold (Qsum (repeat d m)).
    rewrite IH, Nat2Z.inj_succ. unfold Z.succ. rewrite inject_Z_plus. ring.
Qed.

Lemma Qsum_adjusted (d b a : Q) (n : nat) :
  (1 <= n)%nat ->
  Qsum (adjusted d b a n) == inject_Z (Z.of_nat n) * d + b + a.
Proof.
  destruct n as [|[|m]]; [lia| |]; intros _.
  - cbn. ring.
  - cbn [adjusted Qsum fold_right].
    fold (Qsum (repeat d m ++ [fadd d a])).
    rewrite Qsum_app, Qsum_repeat. cbn [Qsum fold_right fadd exactQ].
    rewrite !Nat2Z.inj_succ. unfold Z.succ. rewrite !inject_Z_plus. ring.
Qed.

Lemma fold_left_Qsum (l : list Q) : forall o,
  fold_left Qplus l o == o + Qsum l.
Proof.
  induction l as [|x l IH]; intros o; cbn [fold_left Qsum fold_right].
  - ring.
  - fold (Qsum l). rewrite IH. ring.
Qed.

(** In exact arithmetic the durations of a returned schedule add up to the
    number of sampled frames times [interval / fps], plus [before_vid] and
    [after_vid]; and the last frame ends, that is its onset plus its
    duration is, at [original_onset] plus that total. *)
Theorem total_duration_exact vid_file original_onset interval before_vid
    after_vid calls frame_nums onsets durations calls' :
  get_frame_time_info cv2 vid_file original_onset interval before_vid
    after_vid calls
  = (Returned (frame_nums, onsets, durations), calls') ->
  exists iv b a,
    as_int interval = Some iv
    /\ float_of before_vid = Returned b
    /\ float_of after_vid = Returned a
    /\ Qsum durations
       == inject_Z (Z.of_nat (length frame_nums))
          * (inject_Z iv / frame_rate (cv2 vid_file))
          + b + a
    /\ (forall o, float_of original_onset = Returned o ->
          exists o_last ol d_last,
            nth_error onsets (length onsets - 1) = Some o_last
            /\ float_of o_last = Returned ol
            /\ nth_error durations (length durations - 1) = Some d_last
            /\ ol + d_last == o + Qsum durations).
Proof.
  intros Hrun.
  destruct (returned_inv _ _ _ _ _ _ _ Hrun)
    as (iv & d & b & a & Hiv & _ & Hfps & Hd & _ & Hlen & Hb & Ha & Hdu
        & _).
  exists iv, b, a. do 3 (split; [assumption|]). split.
  - rewrite Hdu, Qsum_adjusted by assumption.
    rewrite (base_duration_exact (Qeq_bool_neq _ _ Hfps) Hd). reflexivity.
  - assert (Hne : (1 <= length durations)%nat)
      by (rewrite Hdu, length_adjusted; assumption).
    clear Hdu. intros o Ho.
    pose proof (returned_onsets _ _ _ _ _ _ _ Hrun Ho) as Hon.
    destruct durations as [|x l] using rev_ind; [cbn in Hne; lia|].
    clear IHl. rewrite removelast_last in Hon. subst onsets.
    assert (Hl : nth_error (l ++ [x]) (length (l ++ [x]) - 1) = Some x).
    { rewrite length_app, Nat.add_1_r, Nat.sub_succ, Nat.sub_0_r.
      now rewrite nth_error_app2, Nat.sub_diag by lia. }
    pose proof (running_fold l o (i := length l) (le_n _)) as Hr.
    rewrite firstn_all in Hr.
    destruct (onsets_floats original_onset _ _ Ho Hr) as (o_last & Hol & Hfl & _).
    exists o_last, (fold_left fadd l o), x.
    cbn [length]. rewrite length_map, length_running, Nat.sub_succ, Nat.sub_0_r.
    repeat (split; [assumption|]).
    change (@fadd Q exactQ) with Qplus.
    rewrite fold_left_Qsum, Qsum_app. cbn [Qsum fold_right]. ring.
Qed.

Lemma running_shift (c : Q) (ds : list Q) : forall o o',
  o' == o + c ->
  Forall2 (fun x y => y == x + c) (running o ds) (running o' ds).
Proof.
  induction ds as [|d ds IH]; intros o o' Ho; cbn [running].
  - constructor.
  - assert (Hd : fadd o' d == fadd o d + c)
      by (cbn [fadd exactQ]; rewrite Ho; ring).
    constructor; [assumption | now apply IH].
Qed.

Lemma Forall2_map_VFloat (c : Q) (l l' : list Q) :
  Forall2 (fun x y => y == x + c) l l' ->
  Forall2 (fun x y : pyobj Q =>
             exists x' y', float_of x = Returned x'
                           /\ float_of y = Returned y' /\ y' == x' + c)
    (map VFloat l) (map VFloat l').
Proof.
  induction 1 as [|x y l l' Hxy _ IH]; cbn [map]; constructor;
    [|assumption].
  exists x, y. repeat split. assumption.
Qed.

(** In exact arithmetic moving [original_onset] by [c] moves every onset by
    [c] and changes nothing else: the frame numbers and the durations are the
    same. *)
Theorem onset_translation_exact vid_file original_onset o c interval
    before_vid after_vid calls frame_nums onsets durations calls' :
  get_frame_time_info cv2 vid_file original_onset interval before_vid
    after_vid calls
  = (Returned (frame_nums, onsets, durations), calls') ->
  float_of original_onset = Returned o ->
  exists onsets',
    get_frame_time_info cv2 vid_file (VFloat (o + c)) interval before_vid
      after_vid calls
    = (Returned (frame_nums, onsets', durations), calls')
    /\ Forall2 (fun x y =>
                  exists x' y', float_of x = Returned x'
                                /\ float_of y = Returned y' /\ y' == x' + c)
         onsets onsets'.
Proof.
  intros Hrun Ho.
  pose proof (returned_onsets _ _ _ _ _ _ _ Hrun Ho) as Hon.
  destruct (returned_inv _ _ _ _ _ _ _ Hrun)
    as (iv & d & b & a & Hiv & Hpos & Hfps & Hd & Hfn & Hlen & Hb & Ha & Hdu
        & _ & Hcalls).
  destruct (onsets_of_returns (VFloat (o + c)) (ds := removelast durations)
              (or_intror (ex_intro _ (o + c) eq_refl))) as [on' Hon'].
  exists on'. split.
  - subst frame_nums durations calls'.
    eapply returns_closed_form; eassumption.
  - rewrite (onsets_of_running _ _ Hon' (o := o + c) eq_refl), Hon.
    constructor.
    + exists o, (o + c). split; [assumption|]. split; reflexivity.
    + apply Forall2_map_VFloat, running_shift. reflexivity.
Qed.

End ExactTotals.
(** ** Further properties of [gen_dmask] *)

(** The calls recorded, against any mask (the statement of
    [gen_dmask_replays], kept apart for the proofs below). *)
Lemma gen_dmask_recorded (layers : option (list string))
    (channels : option (list Z)) (dmask_file : option string) :
  match gen_dmask layers channels dmask_file (Mask (M:=list mask_call)) with
  | (Returned calls, log) =>
      log = calls
      /\ forall (M : Type) (ML : MaskLike M) (m : M),
           gen_dmask layers channels dmask_file m = returning (replay calls m)
  | (Raised e, log) =>
      log = [] /\ InvalidArgument e
      /\ forall (M : Type) (ML : MaskLike M) (m : M),
           gen_dmask layers channels dmask_file m = (Raised e, m)
  end.
Proof.
  destruct layers as [layers|], dmask_file as [file|].
  - rewrite gen_dmask_both. repeat split; intros; apply gen_dmask_both.
  - destruct layers as [|l1 [|l2 ls]].
    + rewrite gen_dmask_empty. repeat split; intros; apply gen_dmask_empty.
    + rewrite gen_dmask_single. cbn [Mask_set RecordingMask returning Mask app].
      split; [reflexivity|].
      intros. now rewrite gen_dmask_single, returning_replay_one.
    + assert (Hlen : (1 < length (l1 :: l2 :: ls))%nat) by (cbn; lia).
      destruct channels as [channels|].
      * destruct (Nat.eq_dec (length channels) (length (l1 :: l2 :: ls)))
          as [Heq|Hneq].
        -- rewrite gen_dmask_paired_replay, replay_recording by assumption.
           cbn [returning Mask RecordingMask app]. split; [reflexivity|].
           intros. now apply gen_dmask_paired_replay.
        -- rewrite gen_dmask_mismatch by assumption.
           repeat split; intros; now apply gen_dmask_mismatch.
      * rewrite gen_dmask_all_channels_replay, replay_recording by assumption.
        cbn [returning Mask RecordingMask app]. split; [reflexivity|].
        intros. now apply gen_dmask_all_channels_replay.
  - destruct channels as [channels|].
    + rewrite gen_dmask_channels_without_layers.
      repeat split; intros; apply gen_dmask_channels_without_layers.
    + rewrite gen_dmask_file. cbn [Mask_load RecordingMask returning Mask app].
      split; [reflexivity|].
      intros. now rewrite gen_dmask_file, returning_replay_one.
  - rewrite gen_dmask_neither. repeat split; intros; apply gen_dmask_neither.
Qed.

Lemma map_selected_paired (layers : list string) : forall channels : list Z,
  length channels = length layers ->
  map selected_layer (paired_calls layers channels) = map Some layers.
Proof.
  unfold paired_calls.
  induction layers as [|l ls IH]; intros [|c cs] Hlen; try discriminate.
  - reflexivity.
  - cbn [combine map selected_layer]. f_equal. apply IH.
    cbn in Hlen. lia.
Qed.

(** A call that returns has selected exactly the layers it was given, each
    once and in their order, and has loaded nothing; or, given no layers, it
    has made the one [load] of the mask file and selected nothing. *)
Theorem selects_given_layers (layers : option (list string))
    (channels : option (list Z)) (dmask_file : option string)
    (calls log : list mask_call) :
  gen_dmask layers channels dmask_file (Mask (M:=list mask_call))
  = (Returned calls, log) ->
  log = calls
  /\ match layers with
     | Some layers => map selected_layer calls = map Some layers
     | None => exists file, dmask_file = Some file /\ calls = [call_load file]
     end.
Proof.
  destruct layers as [layers|], dmask_file as [file|].
  - rewrite gen_dmask_both. discriminate.
  - destruct layers as [|l1 [|l2 ls]].
    + rewrite gen_dmask_empty. discriminate.
    + rewrite gen_dmask_single. cbn [Mask_set RecordingMask returning Mask app].
      intros Heq. injection Heq as <- <-. split; reflexivity.
    + assert (Hlen : (1 < length (l1 :: l2 :: ls))%nat) by (cbn; lia).
      destruct channels as [channels|].
      * destruct (Nat.eq_dec (length channels) (length (l1 :: l2 :: ls)))
          as [Heq|Hneq].
        -- rewrite gen_dmask_paired_replay, replay_recording by assumption.
           cbn [returning Mask RecordingMask app].
           intros E. injection E as <- <-. split; [reflexivity|].
           now apply map_selected_paired.
        -- rewrite gen_dmask_mismatch by assumption. discriminate.
      * rewrite gen_dmask_all_channels_replay, replay_recording by assumption.
        cbn [returning Mask RecordingMask app].
        intros E. injection E as <- <-. split; [reflexivity|].
        cbn [map selected_layer]. now rewrite map_map.
  - destruct channels as [channels|].
    + rewrite gen_dmask_channels_without_layers. discriminate.
    + rewrite gen_dmask_file. cbn [Mask_load RecordingMask returning Mask app].
      intros E. injection E as <- <-. split; [reflexivity|].
      exists file. split; reflexivity.
  - rewrite gen_dmask_neither. discriminate.
Qed.

(** [gen_dmask] raises an error of its own exactly on the arguments
    [gen_dmask_accepts] refuses: on those it fails with an [InvalidArgument]
    whatever the mask, which it leaves untouched, and on all others it makes
    its calls on the mask and, on a mask that raises nothing, returns. *)
Theorem gen_dmask_accepts_spec (layers : option (list string))
    (channels : option (list Z)) (dmask_file : option string) :
  (gen_dmask_accepts layers channels dmask_file = true ->
   exists calls,
     gen_dmask layers channels dmask_file (Mask (M:=list mask_call))
     = (Returned calls, calls)
     /\ calls <> [])
  /\ (gen_dmask_accepts layers channels dmask_file = false ->
      forall (M : Type) (ML : MaskLike M) (m : M),
      exists e,
        gen_dmask layers channels dmask_file m = (Raised e, m)
        /\ InvalidArgument e).
Proof.
  destruct layers as [layers|], dmask_file as [file|];
    cbn [gen_dmask_accepts].
  - split; [discriminate|]. intros _ M ML m. eexists.
    split; [apply gen_dmask_both | exact I].
  - destruct layers as [|l1 [|l2 ls]]; cbn [length].
    + split; [discriminate|]. intros _ M ML m. eexists.
      split; [apply gen_dmask_empty | exact I].
    + split; [intros _|discriminate].
      rewrite gen_dmask_single. eexists. split; [reflexivity | discriminate].
    + assert (Hlen : (1 < length (l1 :: l2 :: ls))%nat) by (cbn; lia).
      destruct channels as [channels|].
      * change (S (S (length ls))) with (length (l1 :: l2 :: ls)).
        destruct (Nat.eqb_spec (length channels) (length (l1 :: l2 :: ls)))
          as [Heq|Hneq].
        -- split; [intros _|discriminate].
           rewrite gen_dmask_paired_replay, replay_recording by assumption.
           eexists. split; [reflexivity|].
           destruct channels as [|c cs]; discriminate.
        -- split; [discriminate|]. intros _ M ML m. eexists.
           split; [now apply gen_dmask_mismatch | exact I].
      * split; [intros _|discriminate].
        rewrite gen_dmask_all_channels_replay, replay_recording by assumption.
        eexists. split; [reflexivity | discriminate].
  - destruct channels as [channels|]; cbn [is_None].
    + split; [discriminate|]. intros _ M ML m. eexists.
      split; [apply gen_dmask_channels_without_layers | exact I].
    + split; [intros _|discriminate].
      rewrite gen_dmask_file. eexists. split; [reflexivity | discriminate].
  - split; [discriminate|]. intros _ M ML m. eexists.
    split; [apply gen_dmask_neither | exact I].
Qed.

Section Propagation.

Context {M : Type} `{MaskLike M}.

Lemma replay_app (pre post : list mask_call) (m : M) :
  replay (pre ++ post) m
  = match replay pre m with
    | (Returned _, m1) => replay post m1
    | (Raised e, m1) => (Raised e, m1)
    end.
Proof.
  unfold replay. revert m.
  induction pre as [|c pre IH]; intros m; [reflexivity|].
  cbn [app for_each]. unfold bind.
  destruct (match c with
            | call_set layer channels => Mask_set layer channels
            | call_load dmask_file => Mask_load dmask_file
            end m) as [[[]|e] m']; [apply IH | reflexivity].
Qed.

(** An error of the mask goes through unchanged, and nothing is undone or
    tried after it: when the calls up to some call succeed on the mask and
    that call raises, [gen_dmask] raises the same error, and the mask is as
    the failing call left it, with the earlier selections in place. *)
Theorem mask_error_propagates (layers : option (list string))
    (channels : option (list Z)) (dmask_file : option string)
    (pre post : list mask_call) (c : mask_call) (m m1 m2 : M) (e : exn) :
  gen_dmask layers channels dmask_file (Mask (M:=list mask_call))
  = (Returned (pre ++ c :: post), pre ++ c :: post) ->
  replay pre m = (Returned tt, m1) ->
  match c with
  | call_set layer chns => Mask_set layer chns
  | call_load file => Mask_load file
  end m1 = (Raised e, m2) ->
  gen_dmask layers channels dmask_file m = (Raised e, m2).
Proof.
  intros Hrec Hpre Hc.
  pose proof (gen_dmask_recorded layers channels dmask_file) as Hall.
  rewrite Hrec in Hall. destruct Hall as [_ Hall].
  rewrite Hall, replay_app, Hpre.
  unfold replay. cbn [for_each]. unfold bind. rewrite Hc. reflexivity.
Qed.

End Propagation.

(** ** The further properties on concrete calls *)

(** On [dyadic_video], sampled every 2 frames, each of the 7 frames is a
    sampled frame or the one after it. *)
Lemma sampling_covers_witness :
  get_frame_time_info dyadic_video "v" (VFloat (-2)%float) (VInt 2)
    (VFloat 0.5%float) (VInt 1) []
  = (Returned (dyadic_frame_nums, dyadic_onsets, dyadic_durations),
     cv2_calls "v")
  /\ exists iv,
       as_int (F:=float) (VInt 2) = Some iv
       /\ forall f, 1 <= f <= frame_count (dyadic_video "v") ->
                    exists x, In x dyadic_frame_nums /\ x <= f < x + iv.
Proof.
  split; [exact dyadic_run|].
  exact (sampling_covers dyadic_video "v" (VFloat (-2)%float) (VInt 2)
           (VFloat 0.5%float) (VInt 1) [] dyadic_run).
Defined.

(** On [dyadic_video] an interval of 7 frames samples frame 1 only, for
    1.75 + 0.5 + 1 seconds; the onset is the integer given. *)
Lemma single_frame_schedule_witness :
  as_int (F:=float) (VInt 7) = Some 7
  /\ 1 <= frame_count (dyadic_video "v") <= 7
  /\ feqb (frame_rate (dyadic_video "v")) fzero = false
  /\ base_duration (frame_rate (dyadic_video "v")) 7 = Some 1.75%float
  /\ float_of (VFloat 0.5%float) = Returned 0.5%float
  /\ float_of (F:=float) (VInt 1) = Returned 1%float
  /\ get_frame_time_info dyadic_video "v" (VInt (-2)) (VInt 7)
       (VFloat 0.5%float) (VInt 1) []
     = (Returned ([1], [VInt (-2)],
                  [fadd (fadd 1.75%float 0.5%float) 1%float]),
        [] ++ cv2_calls "v").
Proof.
  assert (Hiv : as_int (F:=float) (VInt 7) = Some 7) by reflexivity.
  assert (Hn : 1 <= frame_count (dyadic_video "v") <= 7) by (cbn; lia).
  assert (Hfps : feqb (frame_rate (dyadic_video "v")) fzero = false)
    by (vm_compute; reflexivity).
  assert (Hbase : base_duration (frame_rate (dyadic_video "v")) 7
                  = Some 1.75%float) by (vm_compute; reflexivity).
  assert (Hb : float_of (VFloat 0.5%float) = Returned 0.5%float)
    by reflexivity.
  assert (Ha : float_of (F:=float) (VInt 1) = Returned 1%float)
    by (vm_compute; reflexivity).
  repeat (split; [assumption|]).
  exact (single_frame_schedule dyadic_video "v" (VInt (-2)) (VInt 7)
           (VFloat 0.5%float) (VInt 1) [] Hiv Hn Hfps Hbase Hb Ha).
Defined.

(** On [dyadic_video], starting at 0 instead of -2 gives the same frame
    numbers and durations. *)
Lemma onset_only_moves_onsets_witness :
  get_frame_time_info dyadic_video "v" (VFloat (-2)%float) (VInt 2)
    (VFloat 0.5%float) (VInt 1) []
  = (Returned (dyadic_frame_nums, dyadic_onsets, dyadic_durations),
     cv2_calls "v")
  /\ float_of (F:=float) (VInt 0) = Returned 0%float
  /\ exists on',
       get_frame_time_info dyadic_video "v" (VInt 0) (VInt 2)
         (VFloat 0.5%float) (VInt 1) []
       = (Returned (dyadic_frame_nums, on', dyadic_durations), cv2_calls "v")
       /\ length on' = length dyadic_onsets.
Proof.
  assert (H0 : float_of (F:=float) (VInt 0) = Returned 0%float)
    by (vm_compute; reflexivity).
  split; [exact dyadic_run|]. split; [exact H0|].
  exact (onset_only_moves_onsets dyadic_video "v" (VFloat (-2)%float)
           (VInt 0) (VInt 2) (VFloat 0.5%float) (VInt 1) [] dyadic_run
           (or_intror (ex_intro _ 0%float H0))).
Defined.

(** On [exact_video] the three durations add up to 3 * (3 / 25) + 1/2 + 1. *)
Lemma total_duration_exact_witness :
  get_frame_time_info exact_video "v" (VFloat (-2)%Q) (VInt 3)
    (VFloat 0.5%Q) (VInt 1) []
  = (Returned (exact_frame_nums, exact_onsets, exact_durations),
     cv2_calls "v")
  /\ exists iv b a,
       as_int (F:=Q) (VInt 3) = Some iv
       /\ float_of (VFloat 0.5%Q) = Returned b
       /\ float_of (F:=Q) (VInt 1) = Returned a
       /\ (Qsum exact_durations
           == inject_Z (Z.of_nat (length exact_frame_nums))
              * (inject_Z iv / frame_rate (exact_video "v"))
              + b + a)%Q
       /\ (forall o, float_of (VFloat (-2)%Q) = Returned o ->
             exists o_last ol d_last,
               nth_error exact_onsets (length exact_onsets - 1) = Some o_last
               /\ float_of o_last = Returned ol
               /\ nth_error exact_durations (length exact_durations - 1)
                  = Some d_last
               /\ (ol + d_last == o + Qsum exact_durations)%Q).
Proof.
  split; [exact exact_run|].
  exact (total_duration_exact exact_video "v" (VFloat (-2)%Q) (VInt 3)
           (VFloat 0.5%Q) (VInt 1) [] exact_run).
Defined.

(** On [exact_video], starting 2 seconds later moves each onset by 2. *)
Lemma onset_translation_exact_witness :
  get_frame_time_info exact_video "v" (VFloat (-2)%Q) (VInt 3)
    (VFloat 0.5%Q) (VInt 1) []
  = (Returned (exact_frame_nums, exact_onsets, exact_durations),
     cv2_calls "v")
  /\ float_of (VFloat (-2)%Q) = Returned (-2)%Q
  /\ exists onsets',
       get_frame_time_info exact_video "v" (VFloat (-2 + 2)%Q) (VInt 3)
         (VFloat 0.5%Q) (VInt 1) []
       = (Returned (exact_frame_nums, onsets', exact_durations),
          cv2_calls "v")
       /\ Forall2 (fun x y =>
                     exists x' y', float_of x = Returned x'
                                   /\ float_of y = Returned y'
                                   /\ (y' == x' + 2)%Q)
            exact_onsets onsets'.
Proof.
  split; [exact exact_run|]. split; [reflexivity|].
  exact (onset_translation_exact exact_video "v" (VFloat (-2)%Q) 2%Q (VInt 3)
           (VFloat 0.5%Q) (VInt 1) [] exact_run eq_refl).
Defined.

Lemma paired_recorded :
  gen_dmask (Some ["conv1"; "conv2"]) (Some [3; 5]) None
    (Mask (M:=list mask_call))
  = (Returned [call_set "conv1" (Some [3]); call_set "conv2" (Some [5])],
     [call_set "conv1" (Some [3]); call_set "conv2" (Some [5])]).
Proof. vm_compute. reflexivity. Qed.

(** The paired call selects [conv1] and [conv2], in this order. *)
Lemma selects_given_layers_witness :
  gen_dmask (Some ["conv1"; "conv2"]) (Some [3; 5]) None
    (Mask (M:=list mask_call))
  = (Returned [call_set "conv1" (Some [3]); call_set "conv2" (Some [5])],
     [call_set "conv1" (Some [3]); call_set "conv2" (Some [5])])
  /\ map selected_layer
       [call_set "conv1" (Some [3]); call_set "conv2" (Some [5])]
     = map Some ["conv1"; "conv2"].
Proof.
  split; [exact paired_recorded|].
  exact (proj2 (selects_given_layers _ _ _ paired_recorded)).
Defined.

(** Three layers with two channels are refused, two layers with two
    channels are let through. *)
Lemma gen_dmask_accepts_spec_witness :
  gen_dmask_accepts (Some ["a"; "b"; "c"]) (Some [1; 2]) None = false
  /\ (exists e,
        gen_dmask (Some ["a"; "b"; "c"]) (Some [1; 2]) None
          (Mask (M:=list mask_call))
        = (Raised e, []) /\ InvalidArgument e)
  /\ gen_dmask_accepts (Some ["conv1"; "conv2"]) (Some [3; 5]) None = true
  /\ (exists calls,
        gen_dmask (Some ["conv1"; "conv2"]) (Some [3; 5]) None
          (Mask (M:=list mask_call))
        = (Returned calls, calls) /\ calls <> []).
Proof.
  assert (Hno : gen_dmask_accepts (Some ["a"; "b"; "c"]) (Some [1; 2]) None
                = false) by reflexivity.
  assert (Hyes : gen_dmask_accepts (Some ["conv1"; "conv2"]) (Some [3; 5])
                   None = true) by reflexivity.
  split; [exact Hno|]. split.
  - exact (proj2 (gen_dmask_accepts_spec _ _ _) Hno _ RecordingMask
             (Mask (M:=list mask_call))).
  - split; [exact Hyes|].
    exact (proj1 (gen_dmask_accepts_spec _ _ _) Hyes).
Defined.

Lemma three_layers_recorded :
  gen_dmask (Some ["conv1"; ""; "conv3"]) None None (Mask (M:=list mask_call))
  = (Returned ([call_set "conv1" None] ++ call_set "" None
               :: [call_set "conv3" None]),
     [call_set "conv1" None] ++ call_set "" None :: [call_set "conv3" None]).
Proof. vm_compute. reflexivity. Qed.

(** On [FussyMask], which refuses the second of three layers, the call fails
    with the mask's error; the first layer stays selected and the third is
    never selected. *)
Lemma mask_error_propagates_witness :
  gen_dmask (Some ["conv1"; ""; "conv3"]) None None (Mask (M:=list mask_call))
  = (Returned ([call_set "conv1" None] ++ call_set "" None
               :: [call_set "conv3" None]),
     [call_set "conv1" None] ++ call_set "" None :: [call_set "conv3" None])
  /\ @replay _ FussyMask [call_set "conv1" None] []
     = (Returned tt, [call_set "conv1" None])
  /\ @Mask_set _ FussyMask "" None [call_set "conv1" None]
     = (Raised (ExternalError "KeyError"), [call_set "conv1" None])
  /\ @gen_dmask _ FussyMask (Some ["conv1"; ""; "conv3"]) None None []
     = (Raised (ExternalError "KeyError"), [call_set "conv1" None]).
Proof.
  assert (Hpre : @replay _ FussyMask [call_set "conv1" None] []
                 = (Returned tt, [call_set "conv1" None])) by reflexivity.
  assert (Hc : @Mask_set _ FussyMask "" None [call_set "conv1" None]
               = (Raised (ExternalError "KeyError"), [call_set "conv1" None]))
    by reflexivity.
  split; [exact three_layers_recorded|].
  split; [exact Hpre|]. split; [exact Hc|].
  exact (@mask_error_propagates _ FussyMask _ _ _ _ _ (call_set "" None) _ _ _
           _ three_layers_recorded Hpre Hc).
Defined.
